(** * README generator: the POST handler of [app/api/generate-readme/route.ts]

    A shallow embedding of the route handler: the recursive file walk
    [listFiles], the context extraction (file listing and key-file loop with
    its character budget), the response handling for the generative API and
    the [try]/[catch]/[finally] skeleton of [POST] with its temporary
    directory.

    Conventions of the embedding.
    - JavaScript strings are [string]; a character is one code unit.
      [toLowerCase] is modelled on the ASCII letters.
    - Lengths and the running total [totalContextLength] are [Z]: the source
      computes [MAX_TOTAL_CONTEXT_LENGTH - totalContextLength - 100], which
      can be negative, and [String.prototype.slice] gives a negative end its
      own meaning.
    - What lies outside the process (request body, [mkdtemp], [git clone],
      the cloned tree, [stat], [readFile], the generative API, [rm]) is an
      environment record [Env] of outcomes; a rejected promise or a thrown
      exception is [Throw e].
    - The handler runs in a small state-and-exception monad [IO]; the state
      holds the local variable [tempDir] and the trace of calls that leave
      the process, together with the console output. *)

From Stdlib Require Import String Ascii List ZArith Lia Bool Arith.
From Stdlib Require Import DecimalString.
Import ListNotations.
Open Scope string_scope.
Open Scope nat_scope.
Open Scope list_scope.

(** String concatenation, the [+] and template literals of the source. *)
Infix "+++" := String.append (right associativity, at level 60).

(** ** JavaScript values and string primitives *)

Definition nl : string := String (ascii_of_nat 10) EmptyString.

(** [s.length] *)
Definition len (s : string) : Z := Z.of_nat (String.length s).

(** [s.startsWith(p)] *)
Definition startsWith (s p : string) : bool := String.prefix p s.

(** [s.endsWith(suffix)] *)
Definition endsWith (s suffix : string) : bool :=
  let n := String.length s in
  let m := String.length suffix in
  if m <=? n then String.eqb (substring (n - m) m s) suffix else false.

(** [s.includes(needle)] *)
Definition includes (s needle : string) : bool :=
  match index 0 needle s with Some _ => true | None => false end.

Definition lowerAscii (c : ascii) : ascii :=
  let n := nat_of_ascii c in
  if (65 <=? n) && (n <=? 90) then ascii_of_nat (n + 32) else c.

(** [s.toLowerCase()] *)
Fixpoint toLowerCase (s : string) : string :=
  match s with
  | EmptyString => EmptyString
  | String c r => String (lowerAscii c) (toLowerCase r)
  end.

(** [s.slice(0, e)]: a negative [e] counts from the end of the string. *)
Definition slice0 (s : string) (e : Z) : string :=
  let n := len s in
  let stop := if (e <? 0)%Z then Z.max (n + e) 0 else Z.min e n in
  substring 0 (Z.to_nat stop) s.

(** A number in a template literal. *)
Definition showNat (n : nat) : string := NilZero.string_of_uint (Nat.to_uint n).

(** Truthiness of a string: only the empty string is falsy. *)
Definition truthyStr (s : string) : bool :=
  match s with EmptyString => false | _ => true end.

(** An [Error] object, as far as the handler looks at it. *)
Record JsError : Type := mkError {
  code : option string;
  message : option string
}.

(** Outcome of a call that may throw (or of an awaited promise). *)
Inductive Result (A : Type) : Type :=
| Ok (a : A)
| Throw (e : JsError).
Arguments Ok {A} a.
Arguments Throw {A} e.

(** [`${x}`] of a possibly undefined string *)
Definition showOpt (o : option string) : string :=
  match o with Some s => s | None => "undefined" end.

(** [`${err}`] for an [Error] *)
Definition showError (e : JsError) : string :=
  match message e with
  | Some m => "Error: " +++ m
  | None => "Error"
  end.

(** ** Constants of the module *)

Definition MAX_FILE_READ_SIZE_BYTES : Z := 50 * 1024.
Definition MAX_TOTAL_CONTEXT_LENGTH : Z := 15000.
Definition MAX_FILES_TO_LIST : nat := 100.
Definition MAX_FILE_CONTENT_TO_INCLUDE : nat := 10.

(** ** The directory tree and [listFiles] *)

(** A [Dirent] as [readdir(..., { withFileTypes: true })] returns it: its
    name, and for a directory what reading that directory gives in turn. *)
Record DirentOf (D : Type) : Type := mkDirent {
  name : string;
  subdir : option D
}.
Arguments mkDirent {D} name subdir.
Arguments name {D} d.
Arguments subdir {D} d.

#[local] Set Warnings "-register-all".
Inductive Dir : Type :=
| Entries (dirents : list (DirentOf Dir))
| Unreadable (e : JsError).

Definition Dirent : Type := DirentOf Dir.

Definition isDirectory (d : Dirent) : bool :=
  match subdir d with Some _ => true | None => false end.

Definition file (n : string) : Dirent := mkDirent n None.
Definition directory (n : string) (ds : list Dirent) : Dirent :=
  mkDirent n (Some (Entries ds)).

(** [dirent.name === '.git' || dirent.name === 'node_modules'] *)
Definition ignored (n : string) : bool :=
  String.eqb n ".git" || String.eqb n "node_modules".

(** [path.relative(rootDir, res)]: the components from the root, joined. *)
Definition joinPath (components : list string) : string :=
  String.concat "/" components.

(** [listFiles(dir, fileList, rootDir, maxFiles)].  The pair of [dir] and
    [rootDir] is carried as [rel], the components of [dir] below the root;
    the array [fileList], which the source mutates, is passed and returned. *)
Fixpoint listFiles (dir : Dir) (fileList : list string) (rel : list string)
    (maxFiles : nat) {struct dir} : Result (list string) :=
  if maxFiles <=? length fileList then Ok fileList else
  match dir with
  | Unreadable e => Throw e
  | Entries dirents =>
      (fix loop (ds : list (DirentOf Dir)) (fileList : list string)
         : Result (list string) :=
         match ds with
         | [] => Ok fileList
         | dirent :: rest =>
             if ignored (name dirent) then loop rest fileList else
             match subdir dirent with
             | Some sub =>
                 match listFiles sub fileList (rel ++ [name dirent]) maxFiles with
                 | Throw e => Throw e
                 | Ok fileList' =>
                     if maxFiles <=? length fileList' then Ok fileList'
                     else loop rest fileList'
                 end
             | None =>
                 let fileList' := fileList ++ [joinPath (rel ++ [name dirent])] in
                 if maxFiles <=? length fileList' then Ok fileList'
                 else loop rest fileList'
             end
         end) dirents fileList
  end.

(** ** Context extraction *)

(** What [fs.stat] reports, as far as the handler looks at it. *)
Record Stats : Type := mkStats {
  isFile : bool;
  size : Z
}.

(** The file system below the temporary directory, as the key-file loop
    reads it: [fs.stat(p)] and [fs.readFile(p, 'utf-8')]. *)
Record Fs : Type := mkFs {
  stat : string -> Result Stats;
  readFile : string -> Result string
}.

(** [path.join(dir, rel)] for a directory without trailing separator. *)
Definition pathJoin (dir rel : string) : string := dir +++ "/" +++ rel.

(** The local variables of the extraction phase; [warnings] is what the
    loop sends to [console.warn]. *)
Record Ctx : Type := mkCtx {
  extractedContext : string;
  totalContextLength : Z;
  filesReadCount : nat;
  warnings : list string
}.

Definition header : string := "Repository Structure and Key Files:" +++ nl +++ nl.

(** The body of the [forEach] over the listed files. *)
Definition listLine (c : string * Z) (f : string) : string * Z :=
  let line := "- " +++ f +++ nl in
  if (snd c + len line <? MAX_TOTAL_CONTEXT_LENGTH)%Z
  then (fst c +++ line, (snd c + len line)%Z)
  else c.

(** Lines 85-101: header, file list and the line about omitted files. *)
Definition renderFileList (allFiles : list string) : string * Z :=
  let extractedContext := header in
  let totalContextLength := len extractedContext in
  let extractedContext :=
    extractedContext +++ "File List ("
      +++ showNat (Nat.min (length allFiles) MAX_FILES_TO_LIST)
      +++ " files shown):" +++ nl in
  let '(extractedContext, totalContextLength) :=
    fold_left listLine (firstn MAX_FILES_TO_LIST allFiles)
      (extractedContext, totalContextLength) in
  let extractedContext :=
    if MAX_FILES_TO_LIST <? length allFiles
    then extractedContext +++ "- ... (and "
           +++ showNat (length allFiles - MAX_FILES_TO_LIST)
           +++ " more files)" +++ nl
    else extractedContext in
  (extractedContext +++ nl, totalContextLength).

Definition keyFiles : list string :=
  [ "package.json"; "composer.json"; "requirements.txt"; "Pipfile"; "Gemfile";
    "pom.xml"; "build.gradle"; "Makefile"; "Dockerfile"; "docker-compose.yml";
    "README"; "README.md"; "README.rst" ].

(** How one round of a [for ... of] loop ends: it falls through to the next
    round, or it leaves the loop with [break]. *)
Inductive Flow (S : Type) : Type :=
| Next (s : S)
| Break (s : S).
Arguments Next {S} s.
Arguments Break {S} s.

Definition stateOf {S : Type} (f : Flow S) : S :=
  match f with Next s => s | Break s => s end.

Fixpoint forOf {S A : Type} (body : S -> A -> Flow S) (xs : list A) (s : S)
    : Flow S :=
  match xs with
  | [] => Next s
  | x :: rest =>
      match body s x with
      | Next s' => forOf body rest s'
      | Break s' => Break s'
      end
  end.

(** [allFiles.find(f => f.toLowerCase().endsWith(key.toLowerCase()))] *)
Definition findKeyFile (allFiles : list string) (key : string) : option string :=
  find (fun f => endsWith (toLowerCase f) (toLowerCase key)) allFiles.

(** The wrapped content of one key file, cut to the remaining budget. *)
Definition sectionOf (actualFileRelPath content : string) (total : Z) : string :=
  nl +++ "--- File: " +++ actualFileRelPath +++ " ---" +++ nl
     +++ slice0 content (MAX_TOTAL_CONTEXT_LENGTH - total - 100)
     +++ nl +++ "---" +++ nl.

Definition appendSection (c : Ctx) (section : string) : Ctx :=
  {| extractedContext := extractedContext c +++ section;
     totalContextLength := (totalContextLength c + len section)%Z;
     filesReadCount := S (filesReadCount c);
     warnings := warnings c |}.

Definition warn (c : Ctx) (msg : string) : Ctx :=
  {| extractedContext := extractedContext c;
     totalContextLength := totalContextLength c;
     filesReadCount := filesReadCount c;
     warnings := warnings c ++ [msg] |}.

Definition couldNotRead (actualFileRelPath : string) (readError : JsError) : string :=
  "Could not read file " +++ actualFileRelPath +++ ": " +++ showOpt (message readError).

(** The body of the loop over [keyFiles], lines 115-142. *)
Definition keyFileStep (fs : Fs) (tempDir : string) (allFiles : list string)
    (c : Ctx) (potentialFileRelPath : string) : Flow Ctx :=
  if MAX_FILE_CONTENT_TO_INCLUDE <=? filesReadCount c then Break c else
  match findKeyFile allFiles potentialFileRelPath with
  | None => Next c
  | Some actualFileRelPath =>
      if truthyStr actualFileRelPath then
        let filePath := pathJoin tempDir actualFileRelPath in
        match stat fs filePath with
        | Throw readError => Next (warn c (couldNotRead actualFileRelPath readError))
        | Ok stats =>
            if isFile stats && (size stats <=? MAX_FILE_READ_SIZE_BYTES)%Z then
              match readFile fs filePath with
              | Throw readError =>
                  Next (warn c (couldNotRead actualFileRelPath readError))
              | Ok content =>
                  let section :=
                    sectionOf actualFileRelPath content (totalContextLength c) in
                  if (totalContextLength c + len section <? MAX_TOTAL_CONTEXT_LENGTH)%Z
                  then Next (appendSection c section)
                  else Break c
              end
            else Next c
        end
      else Next c
  end.

Definition keyFileLoop (fs : Fs) (tempDir : string) (allFiles : list string)
    (keys : list string) (c : Ctx) : Flow Ctx :=
  forOf (keyFileStep fs tempDir allFiles) keys c.

Definition noKeyFiles : string := "(No key files identified or read)" +++ nl.

(** The local variables when the loop over [keyFiles] starts, lines 85-114. *)
Definition keyFilesStart (allFiles : list string) : Ctx :=
  let '(listed, total) := renderFileList allFiles in
  {| extractedContext := listed +++ "Key File Contents:" +++ nl;
     totalContextLength := total;
     filesReadCount := 0;
     warnings := [] |}.

(** Step 3 of the handler after the walk, lines 85-146. *)
Definition extractContext (fs : Fs) (tempDir : string) (allFiles : list string)
    : Ctx :=
  let c := stateOf (keyFileLoop fs tempDir allFiles keyFiles (keyFilesStart allFiles)) in
  if filesReadCount c =? 0
  then {| extractedContext := extractedContext c +++ noKeyFiles;
          totalContextLength := totalContextLength c;
          filesReadCount := filesReadCount c;
          warnings := warnings c |}
  else c.

(** ** The prompt *)

(** The template literal of lines 149-171. *)
Definition prompt (repoUrl extractedContext : string) : string :=
  "
            Based *only* on the following extracted context from the public code repository at "
  +++ repoUrl +++
  ", generate a comprehensive README.md file in Markdown format.

            **Extracted Context:**
            ```
            "
  +++ extractedContext +++
  "
            ```

            **Instructions for README Generation:**
            1.  **Infer Purpose:** Based on file names (like package.json, requirements.txt) and any file content provided, infer the project's likely purpose and primary language/framework.
            2.  **Structure:** Create a standard README with sections like:
                * Project Title (Infer a good one)
                * Description (Brief overview based on inference)
                * Tech Stack (List inferred technologies)
                * Getting Started (Provide generic steps based on package managers identified, e.g., 'npm install', 'pip install -r requirements.txt'. Mention cloning the repo.)
                * Usage (If possible, infer basic usage, otherwise provide a placeholder)
                * File Structure Overview (Briefly mention key directories if apparent from the file list)
                * Contributing (Generic placeholder)
                * License (Generic placeholder like MIT unless a LICENSE file was read)
            3.  **Content Source:** Generate content *strictly* from the provided context. Do not add features, instructions, or technologies not mentioned or strongly implied by the context. If context is insufficient for a section, state that or use a placeholder.
            4.  **Formatting:** Use standard Markdown. Format code commands correctly.
            5.  **Conciseness:** Be informative but avoid excessive jargon.
        ".

(** ** Requests, responses and the world outside the process *)

(** A parsed JSON value, or [undefined] for a property that is not there. *)
Inductive JsValue : Type :=
| JUndefined
| JNull
| JBool (b : bool)
| JNumber (n : Z)
| JString (s : string)
| JArray (items : list JsValue)
| JObject (fields : list (string * JsValue)).

(** [!v] is [negb (truthy v)]. *)
Definition truthy (v : JsValue) : bool :=
  match v with
  | JUndefined | JNull => false
  | JBool b => b
  | JNumber n => negb (n =? 0)%Z
  | JString s => truthyStr s
  | JArray _ | JObject _ => true
  end.

Definition cannotDestructure : JsError :=
  {| code := None;
     message := Some "Cannot destructure property 'repoUrl' of 'body' as it is null." |}.

(** [const { repoUrl } = body]: a [TypeError] on [null], the property of an
    object (the last one of that name, as [JSON.parse] keeps it), and
    [undefined] on every other value. *)
Definition destructureRepoUrl (body : JsValue) : Result JsValue :=
  match body with
  | JNull | JUndefined => Throw cannotDestructure
  | JObject fields =>
      match find (fun kv => String.eqb (fst kv) "repoUrl") (rev fields) with
      | Some kv => Ok (snd kv)
      | None => Ok JUndefined
      end
  | _ => Ok JUndefined
  end.

(** The test of line 63, [true] when the request is turned down. *)
Definition invalidRepoUrl (repoUrl : JsValue) : bool :=
  negb (truthy repoUrl)
  || match repoUrl with
     | JString s => negb (startsWith s "http://") && negb (startsWith s "https://")
     | _ => true
     end.

(** A value that passed the test of line 63 is a string; this is the
    narrowing the type checker does there. *)
Definition asString (v : JsValue) : string :=
  match v with JString s => s | _ => "" end.

(** The body of a [NextResponse.json(...)]. *)
Inductive ResponseBody : Type :=
| ReadmeBody (readme : string)
| ErrorBody (error : string).

Record HttpResponse : Type := mkResponse {
  status : nat;
  body : ResponseBody
}.

Inductive Level : Type := LogLevel | WarnLevel | ErrorLevel.

(** The calls that leave the process, and the console.  A console line is
    kept as its text; an [Error] passed as a further argument is shown as a
    template literal would show it, any other object is left out. *)
Inductive Event : Type :=
| Console (level : Level) (msg : string)
| Mkdtemp (prefix : string)
| Clone (baseDir repoUrl localPath : string) (options : list string)
| GenerateContent (model prompt : string)
| Rm (path : string) (recursive force : bool).

(** The handler's mutable local [tempDir] and what it has done so far. *)
Record St : Type := mkSt {
  tempDir : option string;
  trace : list Event
}.

Definition initial : St := {| tempDir := None; trace := [] |}.

(** ** The monad of the handler: state that survives an exception *)

Definition IO (A : Type) : Type := St -> Result A * St.

Definition ret {A : Type} (a : A) : IO A := fun st => (Ok a, st).

Definition throw {A : Type} (e : JsError) : IO A := fun st => (Throw e, st).

Definition bind {A B : Type} (m : IO A) (k : A -> IO B) : IO B :=
  fun st =>
    match m st with
    | (Ok a, st') => k a st'
    | (Throw e, st') => (Throw e, st')
    end.

Notation "x <- m ;; k" := (bind m (fun x => k))
  (at level 61, m at next level, right associativity).
Notation "m ;;; k" := (bind m (fun _ => k))
  (at level 61, right associativity).

(** An awaited call with a given outcome. *)
Definition await {A : Type} (r : Result A) : IO A := fun st => (r, st).

Definition emit (e : Event) : IO unit :=
  fun st => (Ok tt, {| tempDir := tempDir st; trace := trace st ++ [e] |}).

Definition console (l : Level) (msg : string) : IO unit := emit (Console l msg).

Definition setTempDir (d : string) : IO unit :=
  fun st => (Ok tt, {| tempDir := Some d; trace := trace st |}).

Definition getTempDir : IO (option string) := fun st => (Ok (tempDir st), st).

Fixpoint forEachIO {A : Type} (f : A -> IO unit) (xs : list A) : IO unit :=
  match xs with
  | [] => ret tt
  | x :: rest => f x ;;; forEachIO f rest
  end.

(** [try { body } catch (error) { handler } finally { cleanup }]: the
    cleanup runs after the body or the handler, whatever they did, and an
    exception of the cleanup replaces their outcome. *)
Definition tryCatchFinally {A : Type} (body : IO A) (handler : JsError -> IO A)
    (cleanup : IO unit) : IO A :=
  fun st =>
    let '(r1, st1) := body st in
    let '(r2, st2) :=
      match r1 with
      | Ok a => (Ok a, st1)
      | Throw e => handler e st1
      end in
    let '(r3, st3) := cleanup st2 in
    (match r3 with Ok _ => r2 | Throw e => Throw e end, st3).

(** ** The handler *)

Section Handler.

(** The provider's [promptFeedback] object and [JSON.stringify] on it belong
    to the SDK and the runtime; both are taken as given. *)
Variable PromptFeedback : Type.
Variable JSON_stringify : PromptFeedback -> string.

Record Candidate : Type := mkCandidate {
  finishReason : option string
}.

(** [generationResult.response], as far as the handler looks at it.  [text]
    is [None] when the property is missing; otherwise it holds what calling
    [response.text()] gives. *)
Record GenResponse : Type := mkGenResponse {
  candidates : option (list Candidate);
  promptFeedback : option PromptFeedback;
  text : option (Result string)
}.

Record Env : Type := mkEnv {
  requestJson : Result JsValue;          (* [await request.json()] *)
  tmpdir : string;                       (* [os.tmpdir()] *)
  mkdtempSuffix : Result string;         (* the characters [mkdtemp] appends *)
  gitClone : string -> string -> Result unit;   (* repository URL, base directory *)
  clonedTree : Dir;                      (* the temporary directory after the clone *)
  fileSystem : Fs;
  generateContent : string -> Result (option GenResponse);
  rm : string -> Result unit
}.

(** [new GoogleGenerativeAI(API_KEY)] *)
Record GoogleGenerativeAI : Type := mkGenAI { apiKey : string }.

(** Line 14; [API_KEY] is [process.env.GOOGLE_API_KEY]. *)
Definition genAI (API_KEY : option string) : option GoogleGenerativeAI :=
  match API_KEY with
  | Some k => if truthyStr k then Some (mkGenAI k) else None
  | None => None
  end.

(** [NextResponse.json(body, { status })] *)
Definition json (b : ResponseBody) (st : nat) : HttpResponse :=
  {| status := st; body := b |}.

(** [response?.candidates?.[0]?.finishReason] *)
Definition firstFinishReason (response : option GenResponse) : option string :=
  match response with
  | Some r =>
      match candidates r with
      | Some (c :: _) => finishReason c
      | _ => None
      end
  | None => None
  end.

(** [JSON.stringify(response?.promptFeedback)] inside a template literal *)
Definition showFeedback (response : option GenResponse) : string :=
  match response with
  | Some r =>
      match promptFeedback r with
      | Some f => JSON_stringify f
      | None => "undefined"
      end
  | None => "undefined"
  end.

(** [finishReason || 'Unknown'] *)
Definition orUnknown (finishReason : option string) : string :=
  match finishReason with
  | Some s => if truthyStr s then s else "Unknown"
  | None => "Unknown"
  end.

Definition failedToGenerate (response : option GenResponse) : string :=
  "Failed to generate content. Reason: " +++ orUnknown (firstFinishReason response)
    +++ ". Feedback: " +++ showFeedback response.

(** [response && response.candidates && response.candidates.length > 0
    && response.text] *)
Definition usable (response : option GenResponse) : option (Result string) :=
  match response with
  | Some r =>
      match candidates r with
      | Some (_ :: _) => text r
      | _ => None
      end
  | None => None
  end.

(** Step 6, lines 181-189. *)
Definition processResponse (response : option GenResponse) : IO HttpResponse :=
  match usable response with
  | Some textCall =>
      readmeText <- await textCall ;;
      ret (json (ReadmeBody readmeText) 200)
  | None =>
      console ErrorLevel "Gemini response invalid or blocked:" ;;;
      ret (json (ErrorBody (failedToGenerate response)) 500)
  end.

Definition mkdtempPrefix (env : Env) : string := pathJoin (tmpdir env) "gemini-readme-".

(** Steps 2 to 6 of the [try] block, lines 69-189, once [tempDir] holds
    the directory [dir]. *)
Definition cloneExtractGenerate (env : Env) (repoUrl dir : string)
    : IO HttpResponse :=
  console LogLevel ("Created temporary directory: " +++ dir) ;;;
  console LogLevel ("Cloning " +++ repoUrl +++ " into " +++ dir +++ "...") ;;;
  emit (Clone dir repoUrl "." ["--depth=1"]) ;;;
  await (gitClone env repoUrl dir) ;;;
  console LogLevel "Repository cloned successfully." ;;;
  console LogLevel "Extracting repository information..." ;;;
  allFiles <- await (listFiles (clonedTree env) [] [] MAX_FILES_TO_LIST) ;;
  let c := extractContext (fileSystem env) dir allFiles in
  forEachIO (console WarnLevel) (warnings c) ;;;
  console LogLevel ("Extracted context length: "
                    +++ showNat (Z.to_nat (totalContextLength c))
                    +++ " characters.") ;;;
  let p := prompt repoUrl (extractedContext c) in
  console LogLevel "Sending prompt to Gemini..." ;;;
  emit (GenerateContent "gemini-1.5-flash" p) ;;;
  response <- await (generateContent env p) ;;
  console LogLevel "Received response from Gemini." ;;;
  processResponse response.

(** The [try] block, lines 60-189. *)
Definition tryBlock (ai : GoogleGenerativeAI) (env : Env) : IO HttpResponse :=
  body <- await (requestJson env) ;;
  repoUrl <- await (destructureRepoUrl body) ;;
  if invalidRepoUrl repoUrl
  then ret (json (ErrorBody "Invalid repository URL provided.") 400)
  else
    emit (Mkdtemp (mkdtempPrefix env)) ;;;
    suffix <- await (mkdtempSuffix env) ;;
    let dir := mkdtempPrefix env +++ suffix in
    setTempDir dir ;;;
    cloneExtractGenerate env (asString repoUrl) dir.

(** [error.message?.includes(needle)] *)
Definition messageIncludes (e : JsError) (needle : string) : bool :=
  match message e with
  | Some m => includes m needle
  | None => false
  end.

(** The [catch] block, lines 191-202. *)
Definition catchBlock (e : JsError) : IO HttpResponse :=
  console ErrorLevel ("Error in /api/generate-readme: " +++ showError e) ;;;
  let errorMessage :=
    if match code e with Some c => String.eqb c "ENOENT" | None => false end
       || messageIncludes e "Authentication failed"
    then "Failed to clone repository. Check URL and ensure it's public."
    else if messageIncludes e "mkdtemp"
    then "Failed to create temporary directory on server."
    else match message e with
         | Some m => if truthyStr m then m else "An internal server error occurred."
         | None => "An internal server error occurred."
         end in
  ret (json (ErrorBody errorMessage) 500).

(** The [finally] block, lines 203-211; the [.catch] on the promise of
    [fs.rm] turns its rejection into a line on the console. *)
Definition finallyBlock (env : Env) : IO unit :=
  dir <- getTempDir ;;
  match dir with
  | Some d =>
      if truthyStr d then
        console LogLevel ("Cleaning up temporary directory: " +++ d) ;;;
        emit (Rm d true true) ;;;
        match rm env d with
        | Ok _ => ret tt
        | Throw err =>
            console ErrorLevel ("Failed to remove temporary directory " +++ d
                                +++ ": " +++ showError err)
        end
      else ret tt
  | None => ret tt
  end.

(** [export async function POST(request)] *)
Definition POST (API_KEY : option string) (env : Env) : IO HttpResponse :=
  match genAI API_KEY with
  | None => ret (json (ErrorBody "API Key not configured.") 500)
  | Some ai => tryCatchFinally (tryBlock ai env) catchBlock (finallyBlock env)
  end.

End Handler.

Arguments mkGenResponse {PromptFeedback} candidates promptFeedback text.
Arguments candidates {PromptFeedback} g.
Arguments promptFeedback {PromptFeedback} g.
Arguments text {PromptFeedback} g.
Arguments mkEnv {PromptFeedback}.
Arguments requestJson {PromptFeedback} e.
Arguments tmpdir {PromptFeedback} e.
Arguments mkdtempSuffix {PromptFeedback} e.
Arguments gitClone {PromptFeedback} e.
Arguments clonedTree {PromptFeedback} e.
Arguments fileSystem {PromptFeedback} e.
Arguments generateContent {PromptFeedback} e.
Arguments rm {PromptFeedback} e.
Arguments firstFinishReason {PromptFeedback} response.
Arguments showFeedback {PromptFeedback} JSON_stringify response.
Arguments failedToGenerate {PromptFeedback} JSON_stringify response.
Arguments usable {PromptFeedback} response.
Arguments processResponse {PromptFeedback} JSON_stringify response.
Arguments mkdtempPrefix {PromptFeedback} env.
Arguments cloneExtractGenerate {PromptFeedback} JSON_stringify env repoUrl dir.
Arguments tryBlock {PromptFeedback} JSON_stringify ai env.
Arguments finallyBlock {PromptFeedback} env.
Arguments POST {PromptFeedback} JSON_stringify API_KEY env.

(** * The page, [app/page.tsx]

    The component keeps six pieces of state.  A handler is a closure of one
    render: it reads the state of that render ([repoUrl], [error],
    [generatedReadme]) and its [set...] calls replace fields of the state
    that the next render will see.  A handler therefore takes the state of
    its render and threads the state being built, together with what leaves
    the component (requests, console, clipboard, timers). *)

(** [String(v)], as [new Error(v)] applies it to its argument. *)
Fixpoint jsToString (v : JsValue) : string :=
  match v with
  | JUndefined => "undefined"
  | JNull => "null"
  | JBool true => "true"
  | JBool false => "false"
  | JNumber n => NilZero.string_of_int (Z.to_int n)
  | JString s => s
  | JArray items =>
      String.concat ","
        (map (fun item =>
                match item with
                | JUndefined | JNull => ""
                | _ => jsToString item
                end) items)
  | JObject _ => "[object Object]"
  end.

(** [v.key], reading a property: a [TypeError] on [null] and [undefined],
    the property of an object, [undefined] on every other value. *)
Definition readProperty (v : JsValue) (key : string) : Result JsValue :=
  match v with
  | JNull =>
      Throw {| code := None;
               message := Some ("Cannot read properties of null (reading '"
                                +++ key +++ "')") |}
  | JUndefined =>
      Throw {| code := None;
               message := Some ("Cannot read properties of undefined (reading '"
                                +++ key +++ "')") |}
  | JObject fields =>
      match find (fun kv => String.eqb (fst kv) key) (rev fields) with
      | Some kv => Ok (snd kv)
      | None => Ok JUndefined
      end
  | _ => Ok JUndefined
  end.

(** [new Error(message)] *)
Definition newError (msg : string) : JsError :=
  {| code := None; message := Some msg |}.

Module Page.

Inductive CopyStatus : Type := Idle | Copied | Failed.

(** The [useState] values of one render. *)
Record State : Type := mkState {
  repoUrl : string;
  generatedReadme : string;
  isLoading : bool;
  error : option string;
  statusMessage : string;
  copyStatus : CopyStatus
}.

(** The first render. *)
Definition initialState : State :=
  {| repoUrl := ""; generatedReadme := ""; isLoading := false;
     error := None; statusMessage := ""; copyStatus := Idle |}.

Definition setIsLoading (b : bool) (s : State) : State :=
  {| repoUrl := repoUrl s; generatedReadme := generatedReadme s;
     isLoading := b; error := error s;
     statusMessage := statusMessage s; copyStatus := copyStatus s |}.

Definition setError (e : option string) (s : State) : State :=
  {| repoUrl := repoUrl s; generatedReadme := generatedReadme s;
     isLoading := isLoading s; error := e;
     statusMessage := statusMessage s; copyStatus := copyStatus s |}.

Definition setGeneratedReadme (r : string) (s : State) : State :=
  {| repoUrl := repoUrl s; generatedReadme := r;
     isLoading := isLoading s; error := error s;
     statusMessage := statusMessage s; copyStatus := copyStatus s |}.

Definition setStatusMessage (m : string) (s : State) : State :=
  {| repoUrl := repoUrl s; generatedReadme := generatedReadme s;
     isLoading := isLoading s; error := error s;
     statusMessage := m; copyStatus := copyStatus s |}.

Definition setCopyStatus (c : CopyStatus) (s : State) : State :=
  {| repoUrl := repoUrl s; generatedReadme := generatedReadme s;
     isLoading := isLoading s; error := error s;
     statusMessage := statusMessage s; copyStatus := c |}.

(** What a [fetch] resolves to: the status and what [response.json()]
    gives. *)
Record Response : Type := mkResponse {
  status : nat;
  jsonBody : Result JsValue
}.

(** [response.ok] *)
Definition ok (r : Response) : bool := (200 <=? status r) && (status r <=? 299).

(** What leaves the component. *)
Inductive Effect : Type :=
| PreventDefault
| Fetch (path method : string) (body : JsValue)
| ConsoleError (msg : string)
| ConsoleWarn (msg : string)
| WriteText (text : string)
| ResetCopyStatusAfter (milliseconds : nat).

(** The state being built and the effects so far. *)
Definition Store : Type := State * list Effect.

Definition Handler (A : Type) : Type := Store -> Result A * Store.

Definition ret {A : Type} (a : A) : Handler A := fun st => (Ok a, st).

Definition throw {A : Type} (e : JsError) : Handler A := fun st => (Throw e, st).

Definition bind {A B : Type} (m : Handler A) (k : A -> Handler B) : Handler B :=
  fun st =>
    match m st with
    | (Ok a, st') => k a st'
    | (Throw e, st') => (Throw e, st')
    end.

Definition await {A : Type} (r : Result A) : Handler A := fun st => (r, st).

Definition set (f : State -> State) : Handler unit :=
  fun st => (Ok tt, (f (fst st), snd st)).

Definition effect (e : Effect) : Handler unit :=
  fun st => (Ok tt, (fst st, snd st ++ [e])).

Definition tryCatchFinally {A : Type} (body : Handler A)
    (handler : JsError -> Handler A) (cleanup : Handler unit) : Handler A :=
  fun st =>
    let '(r1, st1) := body st in
    let '(r2, st2) :=
      match r1 with
      | Ok a => (Ok a, st1)
      | Throw e => handler e st1
      end in
    let '(r3, st3) := cleanup st2 in
    (match r3 with Ok _ => r2 | Throw e => Throw e end, st3).

Declare Scope page_scope.
Delimit Scope page_scope with page.
Notation "x <- m ;; k" := (bind m (fun x => k))
  (at level 61, m at next level, right associativity) : page_scope.
Notation "m ;;; k" := (bind m (fun _ => k))
  (at level 61, right associativity) : page_scope.
Local Open Scope page_scope.

(** [`HTTP error! Status: ${response.status}`] *)
Definition httpError (response : Response) : string :=
  "HTTP error! Status: " +++ showNat (status response).

(** [x || fallback] on a value, then [String(...)] as [new Error] does. *)
Definition orElse (v : JsValue) (fallback : string) : string :=
  if truthy v then jsToString v else fallback.

(** [err.message || fallback] *)
Definition messageOr (err : JsError) (fallback : string) : string :=
  match message err with
  | Some m => if truthyStr m then m else fallback
  | None => fallback
  end.

(** [if (error)] on the [string | null] state *)
Definition truthyError (e : option string) : bool :=
  match e with Some m => truthyStr m | None => false end.

(** The [try] block of [handleSubmit], lines 31-51. *)
Definition submitTry (fetch : JsValue -> Result Response) (rendered : State)
    : Handler unit :=
  set (setStatusMessage "Sending request...") ;;;
  let requestBody := JObject [("repoUrl", JString (repoUrl rendered))] in
  effect (Fetch "/api/generate-readme" "POST" requestBody) ;;;
  response <- await (fetch requestBody) ;;
  set (setStatusMessage "Analyzing repository & generating README...") ;;;
  (if negb (ok response) then
     let errorData :=
       match jsonBody response with
       | Ok v => v
       | Throw _ => JObject [("error", JString (httpError response))]
       end in
     errorText <- await (readProperty errorData "error") ;;
     throw (newError (orElse errorText (httpError response)))
   else ret tt) ;;;
  data <- await (jsonBody response) ;;
  readme <- await (readProperty data "readme") ;;
  match readme with
  | JString text =>
      set (setStatusMessage "README generated successfully!") ;;;
      set (setGeneratedReadme text)
  | _ => throw (newError "Received invalid response format from server.")
  end.

(** The [catch] block of [handleSubmit], lines 52-55. *)
Definition submitCatch (err : JsError) : Handler unit :=
  effect (ConsoleError ("Generation failed: " +++ showError err)) ;;;
  set (setError (Some (messageOr err
         "Failed to generate README. Check console or server logs."))) ;;;
  set (setStatusMessage "").

(** The [finally] block of [handleSubmit], lines 56-62; [error] is the
    value of the render the handler belongs to. *)
Definition submitFinally (rendered : State) : Handler unit :=
  set (setIsLoading false) ;;;
  if truthyError (error rendered) then set (setStatusMessage "") else ret tt.

(** [handleSubmit], lines 15-63. *)
Definition handleSubmit (fetch : JsValue -> Result Response) (rendered : State)
    : Handler unit :=
  effect PreventDefault ;;;
  set (setIsLoading true) ;;;
  set (setError None) ;;;
  set (setGeneratedReadme "") ;;;
  set (setStatusMessage "Fetching repository...") ;;;
  set (setCopyStatus Idle) ;;;
  if negb (startsWith (repoUrl rendered) "http://")
     && negb (startsWith (repoUrl rendered) "https://")
  then
    set (setError (Some "Please enter a valid repository URL (http:// or https://).")) ;;;
    set (setIsLoading false)
  else
    tryCatchFinally (submitTry fetch rendered) submitCatch (submitFinally rendered).

(** [handleCopyReadme], lines 66-90; [clipboard] is
    [navigator.clipboard.writeText] when the Clipboard API is there. *)
Definition handleCopyReadme (clipboard : option (string -> Result unit))
    (rendered : State) : Handler unit :=
  match clipboard with
  | Some writeText =>
      effect (WriteText (generatedReadme rendered)) ;;;
      match writeText (generatedReadme rendered) with
      | Ok _ =>
          set (setCopyStatus Copied) ;;;
          effect (ResetCopyStatusAfter 2000)
      | Throw err =>
          effect (ConsoleError ("Failed to copy README to clipboard: "
                                +++ showError err)) ;;;
          set (setCopyStatus Failed) ;;;
          effect (ResetCopyStatusAfter 3000)
      end
  | None =>
      effect (ConsoleWarn "Clipboard API not available in this context.") ;;;
      set (setError (Some "Clipboard API not available in this browser/context.")) ;;;
      set (setCopyStatus Failed) ;;;
      effect (ResetCopyStatusAfter 3000)
  end.

(** The state and the effects after a handler of the render [s] has run. *)
Definition after (h : State -> Handler unit) (s : State) : State * list Effect :=
  snd (h s (s, [])).

(** The conditions under which the render shows its parts, lines 129-167. *)
Definition showsSpinner (s : State) : bool := isLoading s.

Definition showsStatus (s : State) : bool :=
  isLoading s && truthyStr (statusMessage s).

Definition showsSuccess (s : State) : bool :=
  negb (isLoading s) && negb (truthyError (error s))
  && truthyStr (generatedReadme s) && includes (statusMessage s) "success".

Definition showsError (s : State) : bool := truthyError (error s).

Definition showsOutput (s : State) : bool :=
  truthyStr (generatedReadme s) && negb (isLoading s).

End Page.

(** * Vocabulary of the properties *)

(** ** The walk *)

(** The loop of [listFiles] over the entries of one directory. *)
Definition listFilesLoop (rel : list string) (maxFiles : nat)
    : list Dirent -> list string -> Result (list string) :=
  fix loop (ds : list (DirentOf Dir)) (fileList : list string)
    : Result (list string) :=
    match ds with
    | [] => Ok fileList
    | dirent :: rest =>
        if ignored (name dirent) then loop rest fileList else
        match subdir dirent with
        | Some sub =>
            match listFiles sub fileList (rel ++ [name dirent]) maxFiles with
            | Throw e => Throw e
            | Ok fileList' =>
                if maxFiles <=? length fileList' then Ok fileList'
                else loop rest fileList'
            end
        | None =>
            let fileList' := fileList ++ [joinPath (rel ++ [name dirent])] in
            if maxFiles <=? length fileList' then Ok fileList'
            else loop rest fileList'
        end
    end.

(** The files of a tree that the walk does not skip, in the order of a
    depth-first walk, each as its components below the root. *)
Fixpoint filePaths (dir : Dir) (rel : list string) : list (list string) :=
  match dir with
  | Unreadable _ => []
  | Entries ds =>
      flat_map
        (fun d : DirentOf Dir =>
           if ignored (name d) then []
           else match subdir d with
                | Some sub => filePaths sub (rel ++ [name d])
                | None => [rel ++ [name d]]
                end)
        ds
  end.

Definition entryPaths (rel : list string) (d : Dirent) : list (list string) :=
  if ignored (name d) then []
  else match subdir d with
       | Some sub => filePaths sub (rel ++ [name d])
       | None => [rel ++ [name d]]
       end.

(** The number of files that the walk does not skip. *)
Fixpoint countFiles (dir : Dir) : nat :=
  match dir with
  | Unreadable _ => 0
  | Entries ds =>
      list_sum
        (map (fun d : DirentOf Dir =>
                if ignored (name d) then 0
                else match subdir d with
                     | Some sub => countFiles sub
                     | None => 1
                     end)
             ds)
  end.

(** Every directory that the walk enters can be read. *)
Fixpoint readable (dir : Dir) : bool :=
  match dir with
  | Unreadable _ => false
  | Entries ds =>
      forallb
        (fun d : DirentOf Dir =>
           ignored (name d)
           || match subdir d with
              | Some sub => readable sub
              | None => true
              end)
        ds
  end.

(** [p] leads to an entry of the tree that is not a directory. *)
Inductive FileAt : Dir -> list string -> Prop :=
| FileAt_here ds d :
    In d ds -> subdir d = None -> FileAt (Entries ds) [name d]
| FileAt_below ds d sub p :
    In d ds -> subdir d = Some sub -> FileAt sub p ->
    FileAt (Entries ds) (name d :: p).

(** A path with a component that the walk skips. *)
Definition excluded (p : list string) : bool := existsb ignored p.

(** No two entries of a directory share a name, at every level. *)
Inductive DistinctNames : Dir -> Prop :=
| DistinctNames_unreadable e : DistinctNames (Unreadable e)
| DistinctNames_entries ds :
    NoDup (map name ds) ->
    (forall d sub, In d ds -> subdir d = Some sub -> DistinctNames sub) ->
    DistinctNames (Entries ds).

(** ** The key-file loop *)

(** The file that stands for a key name and its text, when there is such a
    file, it is a regular file within the size cap, and reading it
    succeeds. *)
Definition candidate (fs : Fs) (tempDir : string) (allFiles : list string)
    (key : string) : option (string * string) :=
  match findKeyFile allFiles key with
  | Some actual =>
      if truthyStr actual then
        match stat fs (pathJoin tempDir actual) with
        | Ok stats =>
            if isFile stats && (size stats <=? MAX_FILE_READ_SIZE_BYTES)%Z then
              match readFile fs (pathJoin tempDir actual) with
              | Ok content => Some (actual, content)
              | Throw _ => None
              end
            else None
        | Throw _ => None
        end
      else None
  | None => None
  end.

(** Same context, total and count: only the console may differ. *)
Definition sameContext (c c' : Ctx) : Prop :=
  extractedContext c' = extractedContext c
  /\ totalContextLength c' = totalContextLength c
  /\ filesReadCount c' = filesReadCount c.

(** What makes the loop pass over the file found for a key name: [stat]
    throws, or it reports something that is not a regular file or is above
    the size cap, or reading the file throws. *)
Definition skippedFile (fs : Fs) (path : string) : Prop :=
  match stat fs path with
  | Throw _ => True
  | Ok stats =>
      isFile stats = false
      \/ (MAX_FILE_READ_SIZE_BYTES < size stats)%Z
      \/ exists e, readFile fs path = Throw e
  end.

(** The text of the context that the running total does not count: the
    line above the file list, the blank line below it, the line above the
    key files, and the note when no key file was read. *)
Definition uncounted (allFiles : list string) (filesRead : nat) : string :=
  ("File List (" +++ showNat (Nat.min (length allFiles) MAX_FILES_TO_LIST)
     +++ " files shown):" +++ nl)
  +++ nl +++ ("Key File Contents:" +++ nl)
  +++ (if filesRead =? 0 then noKeyFiles else "").

(** ** The handler *)

(** The same environment with another outcome for [fs.rm]. *)
Definition withRm {F : Type} (env : Env F) (rm' : string -> Result unit) : Env F :=
  {| requestJson := requestJson env;
     tmpdir := tmpdir env;
     mkdtempSuffix := mkdtempSuffix env;
     gitClone := gitClone env;
     clonedTree := clonedTree env;
     fileSystem := fileSystem env;
     generateContent := generateContent env;
     rm := rm' |}.

Definition isRm (e : Event) : bool :=
  match e with Rm _ _ _ => true | _ => false end.

(** What the [finally] block adds to the trace for the directory [d]. *)
Definition cleanupTrace (d : string) (outcome : Result unit) : list Event :=
  [ Console LogLevel ("Cleaning up temporary directory: " +++ d);
    Rm d true true ]
  ++ match outcome with
     | Ok _ => []
     | Throw err =>
         [ Console ErrorLevel ("Failed to remove temporary directory " +++ d
                               +++ ": " +++ showError err) ]
     end.

(** The computation leaves [tempDir] alone and puts on the trace only events
    that are not a removal. *)
Definition quiet {A : Type} (m : IO A) : Prop :=
  forall st, exists evs,
    snd (m st) = {| tempDir := tempDir st; trace := trace st ++ evs |}
    /\ forallb (fun e => negb (isRm e)) evs = true.

Definition rejected : HttpResponse :=
  json (ErrorBody "Invalid repository URL provided.") 400.

(** The test of line 63 written out: [true] for the strings that start with
    one of the two schemes, [false] for everything else. *)
Definition hasHttpPrefix (v : JsValue) : bool :=
  match v with
  | JString s => startsWith s "http://" || startsWith s "https://"
  | _ => false
  end.

(** What step 6 answers, whatever the state. *)
Definition responseOutcome {F : Type} (JSON_stringify : F -> string)
    (response : option (GenResponse F)) : Result HttpResponse :=
  match usable response with
  | Some (Ok readmeText) => Ok (json (ReadmeBody readmeText) 200)
  | Some (Throw e) => Throw e
  | None => Ok (json (ErrorBody (failedToGenerate JSON_stringify response)) 500)
  end.

(** Induction on a tree: the property holds of a directory when it holds
    of every directory listed in it. *)
Section DirInduction.
Variable P : Dir -> Prop.
Hypothesis P_unreadable : forall e, P (Unreadable e).
Hypothesis P_entries :
  forall ds,
    Forall (fun d : Dirent => forall sub, subdir d = Some sub -> P sub) ds ->
    P (Entries ds).

Fixpoint Dir_nested_ind (dir : Dir) : P dir :=
  match dir with
  | Unreadable e => P_unreadable e
  | Entries ds =>
      P_entries ds
        ((fix all (l : list Dirent)
            : Forall (fun d : Dirent => forall sub, subdir d = Some sub -> P sub) l :=
            match l with
            | [] => Forall_nil _
            | d :: r =>
                Forall_cons d
                  (match subdir d as o
                         return forall sub, o = Some sub -> P sub with
                   | Some s => fun sub H =>
                       match H in _ = o'
                             return match o' with Some x => P x | None => True end
                       with eq_refl => Dir_nested_ind s end
                   | None => fun sub H =>
                       match H in _ = o'
                             return match o' with Some x => P x | None => True end
                       with eq_refl => I end
                   end)
                  (all r)
            end) ds)
  end.
End DirInduction.

(** ** Further vocabulary *)

(** Sections of key files, one after the other. *)
Definition sectionsText (sections : list string) : string :=
  fold_right String.append "" sections.

(** [section] is the wrapped text of the file found for one of [keys]. *)
Definition sectionOfKey (fs : Fs) (tempDir : string) (allFiles keys : list string)
    (section : string) : Prop :=
  exists key actual content total,
    In key keys
    /\ candidate fs tempDir allFiles key = Some (actual, content)
    /\ section = sectionOf actual content total.

(** The lines of the file list, one per path. *)
Definition fileLines (files : list string) : string :=
  fold_right (fun f rest => ("- " +++ f +++ nl) +++ rest) "" files.

(** [error.code === 'ENOENT'] *)
Definition isENOENT (e : JsError) : bool :=
  match code e with Some c => String.eqb c "ENOENT" | None => false end.

(** The three shapes of an answer of the handler. *)
Definition wellFormedAnswer (r : HttpResponse) : Prop :=
  (exists readmeText, r = json (ReadmeBody readmeText) 200)
  \/ r = rejected
  \/ (exists msg, msg <> "" /\ r = json (ErrorBody msg) 500).

(** The two shapes of an answer once the URL has been let through. *)
Definition pipelineAnswer (r : HttpResponse) : Prop :=
  (exists readmeText, r = json (ReadmeBody readmeText) 200)
  \/ (exists msg, msg <> "" /\ r = json (ErrorBody msg) 500).

(** Every response that the computation returns satisfies [P]. *)
Definition answers (P : HttpResponse -> Prop) (m : IO HttpResponse) : Prop :=
  forall st r, fst (m st) = Ok r -> P r.

Definition isConsole (e : Event) : bool :=
  match e with Console _ _ => true | _ => false end.

(** The computation leaves [tempDir] alone and only writes to the console. *)
Definition consoleOnly {A : Type} (m : IO A) : Prop :=
  forall st, exists evs,
    snd (m st) = {| tempDir := tempDir st; trace := trace st ++ evs |}
    /\ forallb isConsole evs = true.

(** [repoUrl] starts with one of the two schemes, the test of line 24. *)
Definition hasScheme (url : string) : bool :=
  startsWith url "http://" || startsWith url "https://".

(** The request that [handleSubmit] sends for the URL in the input. *)
Definition submitRequest (url : string) : JsValue :=
  JObject [("repoUrl", JString url)].

Definition isFetch (e : Page.Effect) : bool :=
  match e with Page.Fetch _ _ _ => true | _ => false end.

(** The same environment with another request body. *)
Definition withRequest {F : Type} (env : Env F) (request : JsValue) : Env F :=
  {| requestJson := Ok request;
     tmpdir := tmpdir env;
     mkdtempSuffix := mkdtempSuffix env;
     gitClone := gitClone env;
     clonedTree := clonedTree env;
     fileSystem := fileSystem env;
     generateContent := generateContent env;
     rm := rm env |}.

(** An answer of the handler as the page's [fetch] sees it: the status, and
    as JSON the object that [NextResponse.json] was given. *)
Definition onTheWire (r : HttpResponse) : Page.Response :=
  {| Page.status := status r;
     Page.jsonBody :=
       Ok (match body r with
           | ReadmeBody readme => JObject [("readme", JString readme)]
           | ErrorBody error => JObject [("error", JString error)]
           end) |}.

(** [fetch('/api/generate-readme', ...)] answered by [POST]. *)
Definition served {F : Type} (JSON_stringify : F -> string)
    (API_KEY : option string) (env : Env F) (request : JsValue)
    : Result Page.Response :=
  match fst (POST JSON_stringify API_KEY (withRequest env request) initial) with
  | Ok r => Ok (onTheWire r)
  | Throw e => Throw e
  end.

(** * Concrete repositories and requests *)

(** A text of [n] characters. *)
Definition filler (n : nat) : string := string_of_list_ascii (repeat "a"%char n).

Definition sampleTempDir : string := "/tmp/gemini-readme-Xy12ab".

(** A small repository: sources, a manifest, and the two directories the
    walk skips. *)
Definition smallRepo : Dir :=
  Entries
    [ directory ".git" [file "HEAD"; file "config"];
      file "package.json";
      directory "src" [file "index.js"; directory "lib" [file "util.js"]];
      directory "node_modules" [directory "left-pad" [file "index.js"]];
      file "README.md" ].

Definition smallRepoFs : Fs :=
  {| stat := fun _ => Ok {| isFile := true; size := 7 |};
     readFile := fun _ => Ok "# Hello" |}.

(** A manifest above the size cap next to a build file. *)
Definition bigManifestFiles : list string := ["package.json"; "Makefile"].

Definition bigManifestFs : Fs :=
  {| stat := fun p =>
       if endsWith p "package.json"
       then Ok {| isFile := true; size := 60000 |}
       else Ok {| isFile := true; size := 9 |};
     readFile := fun p =>
       if endsWith p "package.json" then Ok (filler (Z.to_nat 60000))
       else Ok "all: main" |}.

(** A short manifest and a long README at a long path: the README does not
    fit in what is left of the budget. *)
Definition longReadmePath : string :=
  "documentation/guides/getting-started/installation/linux/ubuntu/long-term-support/README.md".

Definition longReadmeFiles : list string := ["package.json"; longReadmePath].

Definition longReadme : string := filler (Z.to_nat 16000).

Definition longReadmeFs : Fs :=
  {| stat := fun p =>
       if endsWith p "package.json"
       then Ok {| isFile := true; size := 2 |}
       else Ok {| isFile := true; size := 16000 |};
     readFile := fun p =>
       if endsWith p "package.json" then Ok "{}" else Ok longReadme |}.

Definition beforeReadme : Ctx :=
  stateOf (keyFileLoop longReadmeFs sampleTempDir longReadmeFiles
             (firstn 11 keyFiles) (keyFilesStart longReadmeFiles)).

(** One manifest, 46 characters deep, with 20000 characters of text. *)
Definition deepManifest : Dir :=
  Entries
    [ directory "packages"
        [ directory "frontend-application"
            [ directory "web" [file "package.json"] ] ] ].

Definition deepManifestFs : Fs :=
  {| stat := fun _ => Ok {| isFile := true; size := 20000 |};
     readFile := fun _ => Ok (filler (Z.to_nat 20000)) |}.

(** A flat repository of 101 files, [f1] to [f101]. *)
Definition manyFiles : Dir :=
  Entries (map (fun i => file ("f" +++ showNat i)) (seq 1 101)).

(** A stand-in for the provider's feedback object and its JSON text. *)
Record SampleFeedback : Type := mkFeedback { blockReason : string }.

Definition quote : string := String (ascii_of_nat 34) EmptyString.

Definition sampleStringify (f : SampleFeedback) : string :=
  "{" +++ quote +++ "blockReason" +++ quote +++ ":"
      +++ quote +++ blockReason f +++ quote +++ "}".

(** The body [{ repoUrl: v }]. *)
Definition bodyWith (v : JsValue) : JsValue := JObject [("repoUrl", v)].

(** A request against [smallRepo], with the given body and the given
    outcomes of the clone, of the generative API and of the removal. *)
Definition sampleEnv (request : JsValue) (clone : Result unit)
    (generated : Result (option (GenResponse SampleFeedback)))
    (removal : Result unit) : Env SampleFeedback :=
  {| requestJson := Ok request;
     tmpdir := "/tmp";
     mkdtempSuffix := Ok "Xy12ab";
     gitClone := fun _ _ => clone;
     clonedTree := smallRepo;
     fileSystem := smallRepoFs;
     generateContent := fun _ => generated;
     rm := fun _ => removal |}.

Definition helloResponse : GenResponse SampleFeedback :=
  {| candidates := Some [ {| finishReason := Some "STOP" |} ];
     promptFeedback := None;
     text := Some (Ok ("# Hello" +++ nl)) |}.

(** One candidate that stopped at the token limit without any text. *)
Definition emptyTextResponse : GenResponse SampleFeedback :=
  {| candidates := Some [ {| finishReason := Some "MAX_TOKENS" |} ];
     promptFeedback := None;
     text := Some (Ok "") |}.

(** A prompt that the provider blocked: feedback, and no candidate. *)
Definition blockedResponse : GenResponse SampleFeedback :=
  {| candidates := None;
     promptFeedback := Some {| blockReason := "SAFETY" |};
     text := Some (Throw {| code := None;
                            message := Some "Text not available. Response was blocked due to SAFETY" |}) |}.

Definition repositoryNotFound : JsError :=
  {| code := None;
     message := Some "fatal: repository 'https://example.com/not-a-repo/' not found" |}.

Definition noHostInUrl : JsError :=
  {| code := None;
     message := Some "fatal: unable to access 'https:///': URL rejected: No host part in the URL" |}.

Definition directoryBusy : JsError :=
  {| code := Some "EBUSY";
     message := Some "EBUSY: resource busy or locked, rmdir '/tmp/gemini-readme-Xy12ab'" |}.

Definition helloWorldUrl : string := "https://github.com/octocat/Hello-World".

(** The clone of a repository that is not there fails, and so does the
    removal of the directory afterwards. *)
Definition cloneFailsEnv : Env SampleFeedback :=
  sampleEnv (bodyWith (JString "https://example.com/not-a-repo"))
    (Throw repositoryNotFound) (Ok (Some helloResponse)) (Throw directoryBusy).

(** [repoUrl] is the bare scheme [https://], which is no URL. *)
Definition bareSchemeEnv : Env SampleFeedback :=
  sampleEnv (bodyWith (JString "https://"))
    (Throw noHostInUrl) (Ok (Some helloResponse)) (Ok tt).

(** A body without [repoUrl]. *)
Definition missingUrlEnv : Env SampleFeedback :=
  sampleEnv (JObject [("url", JString helloWorldUrl)])
    (Ok tt) (Ok (Some helloResponse)) (Ok tt).

(** Text that is no URL behind the prefix [http://]. *)
Definition prefixedTextEnv : Env SampleFeedback :=
  sampleEnv (bodyWith (JString "http://this is not a url"))
    (Throw repositoryNotFound) (Ok (Some helloResponse)) (Ok tt).

Definition helloEnv : Env SampleFeedback :=
  sampleEnv (bodyWith (JString helloWorldUrl))
    (Ok tt) (Ok (Some helloResponse)) (Ok tt).

Definition emptyTextEnv : Env SampleFeedback :=
  sampleEnv (bodyWith (JString helloWorldUrl))
    (Ok tt) (Ok (Some emptyTextResponse)) (Ok tt).

Definition blockedEnv : Env SampleFeedback :=
  sampleEnv (bodyWith (JString helloWorldUrl))
    (Ok tt) (Ok (Some blockedResponse)) (Ok tt).

(** ** Further repositories, requests and pages *)

(** Two files, and behind them a directory that cannot be read. *)
Definition lockedBehind : list Dirent :=
  [ mkDirent "private" (Some (Unreadable
      {| code := Some "EACCES";
         message := Some "EACCES: permission denied, scandir 'private'" |})) ].

(** An exception of the kind the SDK throws from [text()]. *)
Definition candidateBlocked : JsError :=
  {| code := None;
     message := Some "[GoogleGenerativeAI Error]: Candidate was blocked due to SAFETY" |}.

(** One candidate with the finish reason [SAFETY]; asking for its text
    throws. *)
Definition blockedCandidateEnv : Env SampleFeedback :=
  sampleEnv (bodyWith (JString helloWorldUrl)) (Ok tt)
    (Ok (Some {| candidates := Some [ {| finishReason := Some "SAFETY" |} ];
                 promptFeedback := None;
                 text := Some (Throw candidateBlocked) |}))
    (Ok tt).

Definition tmpdirMissing : JsError :=
  {| code := Some "ENOENT";
     message := Some "ENOENT: no such file or directory, mkdtemp '/tmp/gemini-readme-XXXXXX'" |}.

(** The system's temporary directory is not there. *)
Definition noTmpdirEnv : Env SampleFeedback :=
  {| requestJson := Ok (bodyWith (JString helloWorldUrl));
     tmpdir := "/tmp";
     mkdtempSuffix := Throw tmpdirMissing;
     gitClone := fun _ _ => Ok tt;
     clonedTree := smallRepo;
     fileSystem := smallRepoFs;
     generateContent := fun _ => Ok (Some helloResponse);
     rm := fun _ => Ok tt |}.

Definition smallRepoListing : list string :=
  ["package.json"; "src/index.js"; "src/lib/util.js"; "README.md"].

(** The page after an attempt that failed, with a URL typed in. *)
Definition afterFailure : Page.State :=
  {| Page.repoUrl := helloWorldUrl;
     Page.generatedReadme := "";
     Page.isLoading := false;
     Page.error := Some "Failed to clone repository. Check URL and ensure it's public.";
     Page.statusMessage := "";
     Page.copyStatus := Page.Idle |}.

Definition helloAnswer : Page.Response :=
  {| Page.status := 200;
     Page.jsonBody := Ok (JObject [("readme", JString "# Hello")]) |}.

(** * Properties *)

(** ** The walk *)

Lemma listFiles_unfold dir fileList rel maxFiles :
  listFiles dir fileList rel maxFiles =
  if maxFiles <=? length fileList then Ok fileList else
  match dir with
  | Unreadable e => Throw e
  | Entries ds => listFilesLoop rel maxFiles ds fileList
  end.
Proof. destruct dir; reflexivity. Qed.

Lemma filePaths_entries ds rel :
  filePaths (Entries ds) rel = flat_map (entryPaths rel) ds.
Proof. reflexivity. Qed.

Lemma firstn_app_short {A} (n : nat) (l1 l2 : list A) :
  length l1 < n -> firstn n (l1 ++ l2) = l1 ++ firstn (n - length l1) l2.
Proof.
  intros H. rewrite firstn_app. f_equal. apply firstn_all2. lia.
Qed.

Lemma firstn_app_full {A} (n : nat) (l1 l2 : list A) :
  n <= length l1 -> firstn n (l1 ++ l2) = firstn n l1.
Proof.
  intros H. rewrite firstn_app.
  replace (n - length l1) with 0 by lia. simpl. apply app_nil_r.
Qed.

(** The walk of a readable tree returns the accumulator followed by the
    first paths of the depth-first order, up to the cap. *)
Lemma listFiles_spec dir :
  forall fileList rel maxFiles,
    readable dir = true ->
    listFiles dir fileList rel maxFiles =
    Ok (fileList ++ map joinPath
          (firstn (maxFiles - length fileList) (filePaths dir rel))).
Proof.
  induction dir as [e | ds IH] using Dir_nested_ind; intros fl rel mx Hr.
  - discriminate.
  - rewrite listFiles_unfold.
    destruct (Nat.leb_spec mx (length fl)) as [Hle | Hlt].
    { replace (mx - length fl) with 0 by lia. simpl. now rewrite app_nil_r. }
    rewrite filePaths_entries. simpl in Hr.
    revert fl Hlt. induction ds as [| d rest IHrest]; intros fl Hlt.
    + simpl. rewrite firstn_nil. simpl. now rewrite app_nil_r.
    + simpl in Hr. apply andb_true_iff in Hr as [Hd Hrest].
      inversion IH as [| ? ? IHd IHr]; subst.
      specialize (IHrest IHr Hrest).
      cbn [listFilesLoop flat_map]. fold (listFilesLoop rel mx).
      unfold entryPaths at 1.
      destruct (ignored (name d)) eqn:Hig.
      * simpl. now apply IHrest.
      * simpl in Hd. destruct (subdir d) as [sub |] eqn:Hsub.
        -- rewrite (IHd sub eq_refl _ _ _ Hd).
           set (P := filePaths sub (rel ++ [name d])).
           rewrite length_app, length_map.
           destruct (Nat.leb_spec mx (length fl + length (firstn (mx - length fl) P)))
             as [Hfull | Hmore].
           ++ rewrite firstn_app_full; [reflexivity |].
              rewrite length_firstn in Hfull. lia.
           ++ rewrite length_firstn in Hmore.
              assert (HP : length P < mx - length fl) by lia.
              rewrite (@firstn_all2 _ (mx - length fl) P) by lia.
              rewrite IHrest by (rewrite length_app, length_map; lia).
              rewrite firstn_app_short by exact HP.
              rewrite map_app, <- app_assoc, length_app, length_map.
              now rewrite Nat.sub_add_distr.
        -- cbv zeta. rewrite length_app. cbn [length].
           destruct (Nat.leb_spec mx (length fl + 1)) as [Hfull | Hmore].
           ++ rewrite firstn_app_full by (simpl; lia).
              replace (mx - length fl) with 1 by lia. reflexivity.
           ++ rewrite IHrest by (rewrite length_app; simpl; lia).
              rewrite firstn_app_short by (simpl; lia).
              rewrite map_app, <- app_assoc, length_app.
              cbn [length map app]. now rewrite Nat.sub_add_distr.
Qed.

(** However the tree looks, a walk that returns never holds more than the
    cap (or more than it was handed). *)
Lemma listFiles_length_le dir :
  forall fileList rel maxFiles l,
    listFiles dir fileList rel maxFiles = Ok l ->
    length l <= Nat.max maxFiles (length fileList).
Proof.
  induction dir as [e | ds IH] using Dir_nested_ind; intros fl rel mx l;
    rewrite listFiles_unfold;
    destruct (Nat.leb_spec mx (length fl)) as [Hle | Hlt];
    try (intros [= <-]; lia); try discriminate.
  intros Hloop. enough (length l <= mx) by lia.
  revert fl Hlt Hloop. induction ds as [| d rest IHrest]; intros fl Hlt.
  - intros [= <-]. lia.
  - inversion IH as [| ? ? IHd IHr]; subst. specialize (IHrest IHr).
    cbn [listFilesLoop]. fold (listFilesLoop rel mx).
    destruct (ignored (name d)); [now apply IHrest |].
    destruct (subdir d) as [sub |].
    + destruct (listFiles sub fl (rel ++ [name d]) mx) as [fl' | e] eqn:Hsub;
        [| discriminate].
      apply (IHd sub eq_refl) in Hsub.
      destruct (Nat.leb_spec mx (length fl')).
      * intros [= <-]. lia.
      * now apply IHrest.
    + cbv zeta.
      destruct (Nat.leb_spec mx (length (fl ++ [joinPath (rel ++ [name d])]))) as [H | H].
      * intros [= <-]. rewrite length_app in *. simpl in *. lia.
      * now apply IHrest.
Qed.

Lemma filePaths_length dir :
  forall rel, length (filePaths dir rel) = countFiles dir.
Proof.
  induction dir as [e | ds IH] using Dir_nested_ind; intros rel; [reflexivity |].
  rewrite filePaths_entries. cbn [countFiles].
  induction ds as [| d rest IHrest]; [reflexivity |].
  inversion IH as [| ? ? IHd IHr]; subst.
  cbn [flat_map map]. rewrite length_app, (IHrest IHr).
  change (list_sum (?x :: ?l)) with (x + list_sum l).
  f_equal. unfold entryPaths.
  destruct (ignored (name d)); [reflexivity |].
  destruct (subdir d) as [sub |]; [now apply IHd | reflexivity].
Qed.

Lemma excluded_app p q : excluded (p ++ q) = excluded p || excluded q.
Proof. apply existsb_app. Qed.

(** The paths of [filePaths] are the files of the tree with no skipped
    component, below [rel]. *)
Lemma filePaths_sound dir :
  forall rel p,
    In p (filePaths dir rel) ->
    exists q, p = rel ++ q /\ FileAt dir q /\ excluded q = false.
Proof.
  induction dir as [e | ds IH] using Dir_nested_ind; intros rel p Hin;
    [contradiction |].
  rewrite filePaths_entries in Hin. apply in_flat_map in Hin as (d & Hd & Hp).
  rewrite Forall_forall in IH. specialize (IH d Hd).
  unfold entryPaths in Hp.
  destruct (ignored (name d)) eqn:Hig; [contradiction |].
  destruct (subdir d) as [sub |] eqn:Hsub.
  - apply (IH sub eq_refl) in Hp as (q & -> & Hq & Hex).
    exists (name d :: q). rewrite <- app_assoc. repeat split.
    + now apply FileAt_below with sub.
    + simpl. now rewrite Hig.
  - destruct Hp as [<- | []]. exists [name d]. repeat split.
    + now apply FileAt_here.
    + simpl. now rewrite Hig.
Qed.

Lemma filePaths_complete dir q :
  FileAt dir q ->
  forall rel, excluded q = false -> In (rel ++ q) (filePaths dir rel).
Proof.
  induction 1 as [ds d Hd Hsub | ds d sub p Hd Hsub Hp IHp]; intros rel Hex;
    rewrite filePaths_entries; apply in_flat_map; exists d; split; trivial;
    simpl in Hex; apply orb_false_iff in Hex as [Hig Hex];
    unfold entryPaths; rewrite Hig, Hsub.
  - now left.
  - specialize (IHp (rel ++ [name d]) Hex). now rewrite <- app_assoc in IHp.
Qed.

Lemma entryPaths_below rel d p :
  In p (entryPaths rel d) -> exists q, p = rel ++ name d :: q.
Proof.
  unfold entryPaths. destruct (ignored (name d)); [contradiction |].
  destruct (subdir d) as [sub |].
  - intros H. apply filePaths_sound in H as (q & -> & _).
    exists q. now rewrite <- app_assoc.
  - intros [<- | []]. now exists [].
Qed.

Lemma filePaths_NoDup dir :
  DistinctNames dir -> forall rel, NoDup (filePaths dir rel).
Proof.
  induction 1 as [e | ds Hnames _ IH]; intros rel; [constructor |].
  rewrite filePaths_entries.
  induction ds as [| d rest IHrest]; [constructor |].
  cbn [flat_map]. inversion Hnames as [| ? ? Hd Hrest]; subst.
  apply NoDup_app.
  - unfold entryPaths. destruct (ignored (name d)); [constructor |].
    destruct (subdir d) as [sub |] eqn:Hsub.
    + apply (IH d sub); [now left | exact Hsub].
    + repeat constructor. intros [].
  - apply IHrest; [exact Hrest |].
    intros d' sub Hin. apply IH. now right.
  - intros p Hp Hq. apply entryPaths_below in Hp as (q & ->).
    apply in_flat_map in Hq as (d' & Hd' & Hq).
    apply entryPaths_below in Hq as (q' & Heq).
    apply app_inv_head in Heq. injection Heq as Hn _.
    apply Hd. rewrite Hn. now apply in_map.
Qed.

Lemma excluded_no_metadata p :
  excluded p = false -> ~ In ".git" p /\ ~ In "node_modules" p.
Proof.
  intros Hex. split; intros Hin;
    (assert (excluded p = true) as Habs
       by (apply existsb_exists; eexists; split; [exact Hin | reflexivity]));
    congruence.
Qed.

(** Above the cap the walk returns the first paths of the depth-first
    order, as many as the cap allows. *)
Lemma listFiles_above_cap (root : Dir) :
  readable root = true ->
  MAX_FILES_TO_LIST <= countFiles root ->
  exists paths,
    listFiles root [] [] MAX_FILES_TO_LIST = Ok (map joinPath paths)
    /\ paths = firstn MAX_FILES_TO_LIST (filePaths root [])
    /\ length paths = MAX_FILES_TO_LIST.
Proof.
  intros Hr Hc. eexists. split; [| split; [reflexivity |]].
  - rewrite listFiles_spec by exact Hr. cbn [app length].
    now rewrite Nat.sub_0_r.
  - rewrite length_firstn, filePaths_length. lia.
Qed.

(** The test [allFiles.length > MAX_FILES_TO_LIST] of line 98 is never
    true of what the walk returns. *)
Lemma omitted_line_unreachable (root : Dir) (allFiles : list string) :
  listFiles root [] [] MAX_FILES_TO_LIST = Ok allFiles ->
  (MAX_FILES_TO_LIST <? length allFiles) = false.
Proof.
  intros H. apply listFiles_length_le in H. apply Nat.ltb_ge.
  cbn [length] in H. lia.
Qed.

(** C5. For a tree with fewer files than the cap (counting the files the
    walk does not skip), [listFiles] returns one entry per such file: the
    listing is the paths of exactly the files of the tree none of whose
    components is [.git] or [node_modules], in depth-first order, as many
    entries as there are such files, without repetition when no directory
    lists a name twice; no entry lies below [.git] or [node_modules]. *)
Theorem listFiles_below_cap (root : Dir) :
  readable root = true ->
  countFiles root < MAX_FILES_TO_LIST ->
  exists paths,
    listFiles root [] [] MAX_FILES_TO_LIST = Ok (map joinPath paths)
    /\ length paths = countFiles root
    /\ (forall p, In p paths <-> FileAt root p /\ excluded p = false)
    /\ (forall p, In p paths -> ~ In ".git" p /\ ~ In "node_modules" p)
    /\ (DistinctNames root -> NoDup paths).
Proof.
  intros Hr Hc. exists (filePaths root []).
  assert (Hiff : forall p, In p (filePaths root []) <->
                           FileAt root p /\ excluded p = false).
  { intros p. split.
    - intros H. apply filePaths_sound in H as (q & -> & H). exact H.
    - intros [H Hex]. exact (filePaths_complete root p H [] Hex). }
  split; [| split; [| split; [| split]]].
  - rewrite listFiles_spec by exact Hr. cbn [app length]. do 2 f_equal.
    apply firstn_all2. rewrite filePaths_length. lia.
  - apply filePaths_length.
  - exact Hiff.
  - intros p Hp. apply Hiff in Hp. now apply excluded_no_metadata.
  - intros Hd. now apply filePaths_NoDup.
Qed.

Lemma listFiles_below_cap_witness :
  readable smallRepo = true /\ countFiles smallRepo < MAX_FILES_TO_LIST /\
  exists paths,
    listFiles smallRepo [] [] MAX_FILES_TO_LIST = Ok (map joinPath paths)
    /\ length paths = countFiles smallRepo
    /\ (forall p, In p paths <-> FileAt smallRepo p /\ excluded p = false)
    /\ (forall p, In p paths -> ~ In ".git" p /\ ~ In "node_modules" p)
    /\ (DistinctNames smallRepo -> NoDup paths).
Proof.
  assert (Hr : readable smallRepo = true) by reflexivity.
  assert (Hc : countFiles smallRepo < MAX_FILES_TO_LIST)
    by (apply Nat.ltb_lt; reflexivity).
  exact (conj Hr (conj Hc (listFiles_below_cap smallRepo Hr Hc))).
Defined.

Example listFiles_smallRepo :
  listFiles smallRepo [] [] MAX_FILES_TO_LIST =
  Ok ["package.json"; "src/index.js"; "src/lib/util.js"; "README.md"].
Proof. reflexivity. Qed.

(** ** The key-file loop *)

Lemma append_assoc (a b c : string) : (a +++ b) +++ c = a +++ b +++ c.
Proof. induction a as [| x a IH]; simpl; [reflexivity | now rewrite IH]. Qed.

Lemma append_nil_r (a : string) : a +++ "" = a.
Proof. induction a as [| x a IH]; simpl; [reflexivity | now rewrite IH]. Qed.


Section KeyFiles.
Variable fs : Fs.
Variable tempDir : string.
Variable allFiles : list string.

Lemma sameContext_refl c : sameContext c c.
Proof. repeat split. Qed.

Lemma sameContext_warn c msg : sameContext c (warn c msg).
Proof. repeat split. Qed.

Lemma step_at_cap c key :
  MAX_FILE_CONTENT_TO_INCLUDE <= filesReadCount c ->
  keyFileStep fs tempDir allFiles c key = Break c.
Proof.
  intros H. unfold keyFileStep.
  apply Nat.leb_le in H. now rewrite H.
Qed.

Lemma step_candidate c key actual content :
  filesReadCount c < MAX_FILE_CONTENT_TO_INCLUDE ->
  candidate fs tempDir allFiles key = Some (actual, content) ->
  keyFileStep fs tempDir allFiles c key =
  let section := sectionOf actual content (totalContextLength c) in
  if (totalContextLength c + len section <? MAX_TOTAL_CONTEXT_LENGTH)%Z
  then Next (appendSection c section)
  else Break c.
Proof.
  intros Hc. apply Nat.leb_gt in Hc.
  unfold keyFileStep, candidate. rewrite Hc.
  destruct (findKeyFile allFiles key) as [a |]; [| discriminate].
  destruct (truthyStr a); [| discriminate].
  destruct (stat fs (pathJoin tempDir a)) as [stats | e]; [| discriminate].
  destruct (isFile stats && (size stats <=? MAX_FILE_READ_SIZE_BYTES)%Z);
    [| discriminate].
  destruct (readFile fs (pathJoin tempDir a)) as [t | e]; [| discriminate].
  now intros [= -> ->].
Qed.

Lemma step_no_candidate c key :
  filesReadCount c < MAX_FILE_CONTENT_TO_INCLUDE ->
  candidate fs tempDir allFiles key = None ->
  exists c', keyFileStep fs tempDir allFiles c key = Next c' /\ sameContext c c'.
Proof.
  intros Hc. apply Nat.leb_gt in Hc.
  unfold keyFileStep, candidate. rewrite Hc.
  destruct (findKeyFile allFiles key) as [a |];
    [| eauto using sameContext_refl].
  destruct (truthyStr a); [| eauto using sameContext_refl].
  destruct (stat fs (pathJoin tempDir a)) as [stats | e];
    [| eauto using sameContext_warn].
  destruct (isFile stats && (size stats <=? MAX_FILE_READ_SIZE_BYTES)%Z);
    [| eauto using sameContext_refl].
  destruct (readFile fs (pathJoin tempDir a)) as [t | e];
    [discriminate | eauto using sameContext_warn].
Qed.

(** A round that leaves the loop leaves the state as it found it. *)
Lemma step_break c key c' : keyFileStep fs tempDir allFiles c key = Break c' -> c' = c.
Proof.
  unfold keyFileStep.
  repeat match goal with
         | |- context [match ?x with _ => _ end] => destruct x
         end; congruence.
Qed.



Lemma loop_cons key rest c :
  keyFileLoop fs tempDir allFiles (key :: rest) c =
  match keyFileStep fs tempDir allFiles c key with
  | Next c' => keyFileLoop fs tempDir allFiles rest c'
  | Break c' => Break c'
  end.
Proof. reflexivity. Qed.



(** C6. When the file found for a key name is not a regular file, is
    above the size cap, or cannot be statted or read, the loop goes on to
    the next key name with the context, its running total and the count of
    files read unchanged; for a file that is not regular or is above the
    cap the state is unchanged altogether, whatever reading the file would
    give. *)
Theorem skipped_key_file_continues (c : Ctx) (key : string)
    (rest : list string) (actual : string) :
  filesReadCount c < MAX_FILE_CONTENT_TO_INCLUDE ->
  findKeyFile allFiles key = Some actual ->
  skippedFile fs (pathJoin tempDir actual) ->
  exists c',
    keyFileLoop fs tempDir allFiles (key :: rest) c = keyFileLoop fs tempDir allFiles rest c'
    /\ sameContext c c'
    /\ (forall stats,
          stat fs (pathJoin tempDir actual) = Ok stats ->
          isFile stats && (size stats <=? MAX_FILE_READ_SIZE_BYTES)%Z = false ->
          c' = c).
Proof.
  intros Hc Hfind Hskip. rewrite loop_cons.
  unfold keyFileStep. apply Nat.leb_gt in Hc. rewrite Hc, Hfind.
  unfold skippedFile in Hskip.
  destruct (truthyStr actual).
  2:{ exists c. repeat split. }
  destruct (stat fs (pathJoin tempDir actual)) as [stats | e].
  2:{ eexists. split; [reflexivity |]. split; [apply sameContext_warn |].
      discriminate. }
  destruct (isFile stats && (size stats <=? MAX_FILE_READ_SIZE_BYTES)%Z) eqn:Hok.
  2:{ exists c. repeat split. }
  pose proof Hok as Hok'.
  apply andb_true_iff in Hok as [Hfile Hsize]. apply Z.leb_le in Hsize.
  destruct Hskip as [Hnf | [Hbig | [e He]]]; [congruence | lia |].
  rewrite He. eexists. split; [reflexivity |].
  split; [apply sameContext_warn |]. intros stats' [= <-] H. congruence.
Qed.


End KeyFiles.

Lemma skipped_key_file_continues_witness :
  exists c',
    keyFileLoop bigManifestFs sampleTempDir bigManifestFiles
      ("package.json" :: tl keyFiles) (keyFilesStart bigManifestFiles)
    = keyFileLoop bigManifestFs sampleTempDir bigManifestFiles
        (tl keyFiles) c'
    /\ sameContext (keyFilesStart bigManifestFiles) c'
    /\ (forall stats,
          stat bigManifestFs (pathJoin sampleTempDir "package.json") = Ok stats ->
          isFile stats && (size stats <=? MAX_FILE_READ_SIZE_BYTES)%Z = false ->
          c' = keyFilesStart bigManifestFiles).
Proof.
  apply (skipped_key_file_continues bigManifestFs sampleTempDir bigManifestFiles
           (keyFilesStart bigManifestFiles) "package.json" (tl keyFiles)
           "package.json").
  - apply Nat.ltb_lt. reflexivity.
  - reflexivity.
  - right. left. reflexivity.
Defined.

Example bigManifest_context :
  extractedContext (extractContext bigManifestFs sampleTempDir bigManifestFiles) =
  header +++ "File List (2 files shown):" +++ nl
    +++ "- package.json" +++ nl +++ "- Makefile" +++ nl +++ nl
    +++ "Key File Contents:" +++ nl
    +++ nl +++ "--- File: Makefile ---" +++ nl +++ "all: main" +++ nl +++ "---" +++ nl.
Proof. vm_compute. reflexivity. Qed.


Example longReadme_context :
  extractedContext (extractContext longReadmeFs sampleTempDir longReadmeFiles) =
  header +++ "File List (2 files shown):" +++ nl
    +++ "- package.json" +++ nl +++ "- " +++ longReadmePath +++ nl +++ nl
    +++ "Key File Contents:" +++ nl
    +++ nl +++ "--- File: package.json ---" +++ nl +++ "{}" +++ nl +++ "---" +++ nl.
Proof. vm_compute. reflexivity. Qed.

(** ** The budget *)

Lemma len_append (a b : string) : len (a +++ b) = (len a + len b)%Z.
Proof.
  unfold len. rewrite <- Nat2Z.inj_add. f_equal.
  induction a as [| x a IH]; simpl; [reflexivity | now rewrite IH].
Qed.

Lemma listLine_accounting p f :
  (len (fst (listLine p f)) - snd (listLine p f) = len (fst p) - snd p)%Z
  /\ ((snd p < MAX_TOTAL_CONTEXT_LENGTH)%Z ->
      (snd (listLine p f) < MAX_TOTAL_CONTEXT_LENGTH)%Z).
Proof.
  unfold listLine.
  destruct (Z.ltb_spec (snd p + len ("- " +++ f +++ nl)) MAX_TOTAL_CONTEXT_LENGTH);
    cbn [fst snd]; [| auto].
  rewrite len_append. split; [lia | auto].
Qed.

Lemma fold_listLine_accounting files : forall p,
  (len (fst (fold_left listLine files p)) - snd (fold_left listLine files p)
   = len (fst p) - snd p)%Z
  /\ ((snd p < MAX_TOTAL_CONTEXT_LENGTH)%Z ->
      (snd (fold_left listLine files p) < MAX_TOTAL_CONTEXT_LENGTH)%Z).
Proof.
  induction files as [| f files IH]; intros p; simpl; [auto |].
  destruct (IH (listLine p f)) as [H1 H2].
  destruct (listLine_accounting p f) as [H3 H4].
  split; [lia | auto].
Qed.

(** When the loop over the key files starts, the total is below the budget
    and the context is longer than the total by the three lines that were
    appended without being counted. *)
Lemma keyFilesStart_accounting allFiles :
  length allFiles <= MAX_FILES_TO_LIST ->
  let c := keyFilesStart allFiles in
  len (extractedContext c)
  = (totalContextLength c + len (uncounted allFiles 1))%Z
  /\ (totalContextLength c < MAX_TOTAL_CONTEXT_LENGTH)%Z.
Proof.
  intros Hle. unfold keyFilesStart, renderFileList.
  apply Nat.ltb_ge in Hle. rewrite Hle.
  match goal with
  | |- context [fold_left listLine ?l ?p] =>
      destruct (fold_listLine_accounting l p) as [H1 H2];
      destruct (fold_left listLine l p) as [listed total]
  end.
  cbn [fst snd] in *. cbn [extractedContext totalContextLength].
  unfold uncounted. cbn [Nat.eqb].
  rewrite !len_append in *. split; [| apply H2; reflexivity].
  change (len "") with 0%Z. lia.
Qed.

Lemma keyFileStep_accounting fs tempDir allFiles c key K :
  len (extractedContext c) = (totalContextLength c + K)%Z ->
  (totalContextLength c < MAX_TOTAL_CONTEXT_LENGTH)%Z ->
  let c' := stateOf (keyFileStep fs tempDir allFiles c key) in
  len (extractedContext c') = (totalContextLength c' + K)%Z
  /\ (totalContextLength c' < MAX_TOTAL_CONTEXT_LENGTH)%Z.
Proof.
  intros HK Hlt. unfold keyFileStep.
  repeat match goal with
         | |- context [match ?x with _ => _ end] => destruct x eqn:?
         end; cbn [stateOf warn appendSection extractedContext totalContextLength];
    auto.
  rewrite len_append. split; [lia |]. now apply Z.ltb_lt.
Qed.

Lemma keyFileLoop_accounting fs tempDir allFiles keys K : forall c,
  len (extractedContext c) = (totalContextLength c + K)%Z ->
  (totalContextLength c < MAX_TOTAL_CONTEXT_LENGTH)%Z ->
  let c' := stateOf (keyFileLoop fs tempDir allFiles keys c) in
  len (extractedContext c') = (totalContextLength c' + K)%Z
  /\ (totalContextLength c' < MAX_TOTAL_CONTEXT_LENGTH)%Z.
Proof.
  unfold keyFileLoop.
  induction keys as [| k keys IH]; intros c HK Hlt; simpl; [auto |].
  destruct (keyFileStep_accounting fs tempDir allFiles c k K HK Hlt) as [H1 H2].
  destruct (keyFileStep fs tempDir allFiles c k) as [c1 | c1]; simpl in *; auto.
Qed.

(** The running total stays below the budget; the context itself is longer
    than the total by the text that is appended without being counted. *)
Lemma extractContext_accounting fs tempDir allFiles :
  length allFiles <= MAX_FILES_TO_LIST ->
  let c := extractContext fs tempDir allFiles in
  len (extractedContext c)
  = (totalContextLength c + len (uncounted allFiles (filesReadCount c)))%Z
  /\ (totalContextLength c < MAX_TOTAL_CONTEXT_LENGTH)%Z.
Proof.
  intros Hle. destruct (keyFilesStart_accounting allFiles Hle) as [H1 H2].
  destruct (keyFileLoop_accounting fs tempDir allFiles keyFiles _ _ H1 H2)
    as [H3 H4].
  unfold extractContext.
  destruct (stateOf (keyFileLoop fs tempDir allFiles keyFiles
                       (keyFilesStart allFiles))) as [ctx total n ws].
  cbn [extractedContext totalContextLength filesReadCount] in *.
  destruct n as [| n]; cbn [Nat.eqb extractedContext totalContextLength filesReadCount].
  - split; [| exact H4]. rewrite len_append, H3.
    unfold uncounted. cbn [Nat.eqb]. rewrite !len_append.
    change (len "") with 0%Z. lia.
  - split; [| exact H4]. rewrite H3. reflexivity.
Qed.

(** C1, on the tree [deepManifest]: the walk lists the one file, the loop
    reads it, the running total ends at 14967, below the budget of 15000,
    and the context that goes into the prompt is 15014 characters long. *)
Theorem context_exceeds_budget :
  listFiles deepManifest [] [] MAX_FILES_TO_LIST
  = Ok ["packages/frontend-application/web/package.json"]
  /\ let c := extractContext deepManifestFs sampleTempDir
                ["packages/frontend-application/web/package.json"] in
     totalContextLength c = 14967%Z
     /\ len (extractedContext c) = 15014%Z
     /\ (MAX_TOTAL_CONTEXT_LENGTH <? len (extractedContext c))%Z = true.
Proof. vm_compute. repeat split. Qed.

(** C2, on the tree [manyFiles]: 101 files are there, the walk returns 100
    of them, and the context has no line about the one left out. *)
Theorem no_line_for_omitted_files :
  countFiles manyFiles = 101
  /\ exists allFiles,
       listFiles manyFiles [] [] MAX_FILES_TO_LIST = Ok allFiles
       /\ length allFiles = 100
       /\ forall fs tempDir,
            includes (extractedContext (extractContext fs tempDir allFiles))
              "more files" = false.
Proof.
  split; [reflexivity |]. eexists. split; [vm_compute; reflexivity |].
  split; [reflexivity |]. intros fs tempDir. vm_compute. reflexivity.
Qed.

(** ** The handler *)

Lemma quiet_ret {A} (a : A) : quiet (ret a).
Proof. intros [d t]. exists []. simpl. now rewrite app_nil_r. Qed.

Lemma quiet_await {A} (r : Result A) : quiet (await r).
Proof. intros [d t]. exists []. simpl. now rewrite app_nil_r. Qed.

Lemma quiet_emit (e : Event) : isRm e = false -> quiet (emit e).
Proof. intros H st. exists [e]. simpl. now rewrite H. Qed.

Lemma quiet_bind {A B} (m : IO A) (k : A -> IO B) :
  quiet m -> (forall a, quiet (k a)) -> quiet (bind m k).
Proof.
  intros Hm Hk st. unfold bind.
  destruct (Hm st) as (evs1 & H1 & P1).
  destruct (m st) as [[a | e] st1]; simpl in H1; subst st1.
  - destruct (Hk a {| tempDir := tempDir st; trace := trace st ++ evs1 |})
      as (evs2 & H2 & P2).
    exists (evs1 ++ evs2). rewrite H2. simpl.
    now rewrite app_assoc, forallb_app, P1, P2.
  - now exists evs1.
Qed.

Lemma quiet_forEach_console (l : Level) (msgs : list string) :
  quiet (forEachIO (console l) msgs).
Proof.
  induction msgs as [| m msgs IH]; simpl.
  - apply quiet_ret.
  - apply quiet_bind; [now apply quiet_emit | intros _; exact IH].
Qed.

Ltac quiet_steps :=
  repeat first
    [ apply quiet_ret
    | apply quiet_await
    | apply quiet_emit; reflexivity
    | apply quiet_forEach_console
    | apply quiet_bind; [| intros ? ] ].

Lemma bind_emit {A} (e : Event) (k : unit -> IO A) st :
  bind (emit e) k st = k tt {| tempDir := tempDir st; trace := trace st ++ [e] |}.
Proof. reflexivity. Qed.

Lemma bind_console {A} l msg (k : unit -> IO A) st :
  bind (console l msg) k st =
  k tt {| tempDir := tempDir st; trace := trace st ++ [Console l msg] |}.
Proof. reflexivity. Qed.

Lemma bind_await_ok {A B} (r : Result A) (a : A) (k : A -> IO B) st :
  r = Ok a -> bind (await r) k st = k a st.
Proof. intros ->. reflexivity. Qed.

Lemma forEach_console_run l msgs st :
  forEachIO (console l) msgs st =
  (Ok tt, {| tempDir := tempDir st; trace := trace st ++ map (Console l) msgs |}).
Proof.
  revert st. induction msgs as [| m msgs IH]; intros [d t]; simpl.
  - unfold ret. now rewrite app_nil_r.
  - rewrite bind_console, IH. simpl. now rewrite <- app_assoc.
Qed.

Lemma bind_forEach_console {A} l msgs (k : unit -> IO A) st :
  bind (forEachIO (console l) msgs) k st =
  k tt {| tempDir := tempDir st; trace := trace st ++ map (Console l) msgs |}.
Proof. unfold bind. now rewrite forEach_console_run. Qed.

(** The [catch] block always produces a response. *)
Lemma catchBlock_returns e st : exists resp, fst (catchBlock e st) = Ok resp.
Proof. eexists. reflexivity. Qed.

Lemma quiet_catchBlock e : quiet (catchBlock e).
Proof. unfold catchBlock, console. quiet_steps. Qed.

Lemma invalidRepoUrl_prefix v : invalidRepoUrl v = negb (hasHttpPrefix v).
Proof.
  unfold invalidRepoUrl, hasHttpPrefix.
  destruct v as [| | b | n | s | l | fs]; try apply orb_true_r.
  destruct s as [| c s]; [reflexivity |]. simpl truthyStr.
  now rewrite negb_orb.
Qed.

Section HandlerProperties.

Context {PromptFeedback : Type}.
Variable JSON_stringify : PromptFeedback -> string.

Lemma quiet_processResponse response :
  quiet (processResponse JSON_stringify response).
Proof.
  unfold processResponse. destruct (usable response); unfold console; quiet_steps.
Qed.

Lemma quiet_cloneExtractGenerate (env : Env PromptFeedback) url dir :
  quiet (cloneExtractGenerate JSON_stringify env url dir).
Proof.
  unfold cloneExtractGenerate, console. quiet_steps.
  apply quiet_processResponse.
Qed.

(** The [finally] block never throws; with a directory in [tempDir] it
    logs, removes, and logs again when the removal failed. *)
Lemma finallyBlock_run (env : Env PromptFeedback) st :
  finallyBlock env st =
  (Ok tt,
   match tempDir st with
   | Some d =>
       if truthyStr d
       then {| tempDir := tempDir st;
               trace := trace st ++ cleanupTrace d (rm env d) |}
       else st
   | None => st
   end).
Proof.
  destruct st as [[d |] t]; [| reflexivity].
  unfold finallyBlock, getTempDir, bind, console, emit, cleanupTrace. simpl.
  destruct (truthyStr d); [| reflexivity].
  destruct (rm env d); simpl; now rewrite <- !app_assoc.
Qed.

Lemma mkdtempPrefix_truthy (env : Env PromptFeedback) suffix :
  truthyStr (mkdtempPrefix env +++ suffix) = true.
Proof.
  unfold mkdtempPrefix, pathJoin. rewrite !append_assoc.
  destruct (tmpdir env); reflexivity.
Qed.

(** The [try] block, outcome by outcome, up to the clone. *)
Lemma tryBlock_run ai (env : Env PromptFeedback) st :
  tryBlock JSON_stringify ai env st =
  match requestJson env with
  | Throw e => (Throw e, st)
  | Ok body =>
      match destructureRepoUrl body with
      | Throw e => (Throw e, st)
      | Ok repoUrl =>
          if invalidRepoUrl repoUrl then (Ok rejected, st)
          else
            let called := trace st ++ [Mkdtemp (mkdtempPrefix env)] in
            match mkdtempSuffix env with
            | Throw e => (Throw e, {| tempDir := tempDir st; trace := called |})
            | Ok suffix =>
                cloneExtractGenerate JSON_stringify env (asString repoUrl)
                  (mkdtempPrefix env +++ suffix)
                  {| tempDir := Some (mkdtempPrefix env +++ suffix);
                     trace := called |}
            end
      end
  end.
Proof.
  unfold tryBlock, bind, await.
  destruct (requestJson env) as [body | e]; [| reflexivity].
  destruct (destructureRepoUrl body) as [v | e]; [| reflexivity].
  destruct (invalidRepoUrl v); [reflexivity |].
  unfold emit at 1. cbv beta iota.
  destruct (mkdtempSuffix env) as [suffix | e]; reflexivity.
Qed.

(** What the handler answers is decided by the [try] and [catch] blocks. *)
Lemma POST_result API_KEY ai (env : Env PromptFeedback) st :
  genAI API_KEY = Some ai ->
  fst (POST JSON_stringify API_KEY env st) =
  match tryBlock JSON_stringify ai env st with
  | (Ok resp, _) => Ok resp
  | (Throw e, st1) => fst (catchBlock e st1)
  end.
Proof.
  intros Hai. unfold POST, tryCatchFinally. rewrite Hai.
  destruct (tryBlock JSON_stringify ai env st) as [[resp | e] st1].
  - rewrite finallyBlock_run. reflexivity.
  - destruct (catchBlock e st1) as [r2 st2] eqn:Hc.
    rewrite finallyBlock_run. reflexivity.
Qed.

(** The state in which the handler ends: the [catch] block, when it runs,
    and then the [finally] block, on top of the [try] block. *)
Lemma POST_state API_KEY ai (env : Env PromptFeedback) st :
  genAI API_KEY = Some ai ->
  snd (POST JSON_stringify API_KEY env st) =
  let st2 :=
    match tryBlock JSON_stringify ai env st with
    | (Ok _, st1) => st1
    | (Throw e, st1) => snd (catchBlock e st1)
    end in
  snd (finallyBlock env st2).
Proof.
  intros Hai. unfold POST, tryCatchFinally. rewrite Hai.
  destruct (tryBlock JSON_stringify ai env st) as [[resp | e] st1]; cbv zeta.
  - now destruct (finallyBlock env st1).
  - destruct (catchBlock e st1) as [r2 st2]. cbn [snd].
    now destruct (finallyBlock env st2).
Qed.

(** The handler never throws. *)
Lemma POST_responds API_KEY (env : Env PromptFeedback) st :
  exists resp, fst (POST JSON_stringify API_KEY env st) = Ok resp.
Proof.
  destruct (genAI API_KEY) as [ai |] eqn:Hai.
  - rewrite (POST_result _ ai) by exact Hai.
    destruct (tryBlock JSON_stringify ai env st) as [[resp | e] st1];
      [eauto | apply catchBlock_returns].
  - unfold POST. rewrite Hai. eexists. reflexivity.
Qed.

Lemma POST_rejects API_KEY ai (env : Env PromptFeedback) body v :
  genAI API_KEY = Some ai ->
  requestJson env = Ok body ->
  destructureRepoUrl body = Ok v ->
  invalidRepoUrl v = true ->
  POST JSON_stringify API_KEY env initial = (Ok rejected, initial).
Proof.
  intros Hai Hbody Hv Hinv. unfold POST, tryCatchFinally. rewrite Hai.
  rewrite tryBlock_run, Hbody, Hv, Hinv. reflexivity.
Qed.

(** The first steps of [cloneExtractGenerate] on the trace. *)
Lemma cloneExtractGenerate_trace (env : Env PromptFeedback) url dir st :
  exists evs,
    snd (cloneExtractGenerate JSON_stringify env url dir st) =
    {| tempDir := tempDir st;
       trace := trace st
                ++ Console LogLevel ("Created temporary directory: " +++ dir)
                :: Console LogLevel ("Cloning " +++ url +++ " into " +++ dir +++ "...")
                :: Clone dir url "." ["--depth=1"]
                :: evs |}
    /\ forallb (fun e => negb (isRm e)) evs = true.
Proof.
  unfold cloneExtractGenerate.
  match goal with
  | |- context [bind (console _ _) (fun _ => bind (console _ _)
                  (fun _ => bind (emit _) ?k))] =>
      assert (Hk : quiet (k tt)) by (unfold console; quiet_steps;
                                     apply quiet_processResponse);
      destruct (Hk {| tempDir := tempDir st;
                      trace := ((trace st
                        ++ [Console LogLevel ("Created temporary directory: " +++ dir)])
                        ++ [Console LogLevel ("Cloning " +++ url +++ " into " +++ dir +++ "...")])
                        ++ [Clone dir url "." ["--depth=1"]] |})
        as (evs & Hevs & Pevs)
  end.
  exists evs. split; [| exact Pevs].
  unfold bind at 1 2 3. unfold console at 1 2. unfold emit at 1 2 3.
  cbv beta iota. cbn [tempDir trace]. rewrite Hevs. cbn [tempDir trace].
  f_equal. now rewrite <- !app_assoc.
Qed.

Lemma processResponse_result response st :
  fst (processResponse JSON_stringify response st)
  = responseOutcome JSON_stringify response.
Proof.
  unfold processResponse, responseOutcome.
  destruct (usable response) as [[t | e] |]; reflexivity.
Qed.

(** When the clone, the walk and the call of the API all return, the
    [try] block answers what step 6 makes of the API's response. *)
Lemma cloneExtractGenerate_result (env : Env PromptFeedback) url dir st
    allFiles response :
  gitClone env url dir = Ok tt ->
  listFiles (clonedTree env) [] [] MAX_FILES_TO_LIST = Ok allFiles ->
  generateContent env
    (prompt url (extractedContext (extractContext (fileSystem env) dir allFiles)))
  = Ok response ->
  fst (cloneExtractGenerate JSON_stringify env url dir st)
  = responseOutcome JSON_stringify response.
Proof.
  intros Hclone Hlist Hgen. unfold cloneExtractGenerate.
  rewrite !bind_console, bind_emit.
  rewrite (bind_await_ok _ _ _ _ Hclone), !bind_console.
  rewrite (bind_await_ok _ _ _ _ Hlist). cbv zeta.
  rewrite bind_forEach_console, !bind_console, bind_emit.
  rewrite (bind_await_ok _ _ _ _ Hgen), bind_console.
  apply processResponse_result.
Qed.

Lemma tryBlock_withRm ai (env : Env PromptFeedback) rm' st :
  tryBlock JSON_stringify ai (withRm env rm') st = tryBlock JSON_stringify ai env st.
Proof. reflexivity. Qed.

(** C9. Without the credential ([GOOGLE_API_KEY] unset, or set to the
    empty string) every request is answered at once with status 500 and the
    error [API Key not configured.]; the state is untouched: no call of
    [mkdtemp], no clone, nothing on the trace. *)
Theorem missing_credential_fails_first (env : Env PromptFeedback) (st : St) :
  POST JSON_stringify None env st
  = (Ok (json (ErrorBody "API Key not configured.") 500), st)
  /\ POST JSON_stringify (Some "") env st
     = (Ok (json (ErrorBody "API Key not configured.") 500), st).
Proof. split; reflexivity. Qed.

(** C7, as amended. With the credential in place, a request whose body is
    JSON other than [null] and whose [repoUrl] is missing, is not a string,
    or is a string that starts with neither [http://] nor [https://] is
    answered with status 400 and an error, and nothing else happens: no
    temporary directory, no clone, an empty trace. *)
Theorem invalid_input_rejected_without_effects (API_KEY : option string)
    (ai : GoogleGenerativeAI) (env : Env PromptFeedback) (body v : JsValue) :
  genAI API_KEY = Some ai ->
  requestJson env = Ok body ->
  destructureRepoUrl body = Ok v ->
  (forall s, v = JString s ->
             startsWith s "http://" = false /\ startsWith s "https://" = false) ->
  POST JSON_stringify API_KEY env initial
  = (Ok (json (ErrorBody "Invalid repository URL provided.") 400), initial).
Proof.
  intros Hai Hbody Hv Hno. apply (POST_rejects API_KEY ai env body v); trivial.
  rewrite invalidRepoUrl_prefix. unfold hasHttpPrefix.
  destruct v; trivial. destruct (Hno s eq_refl) as [-> ->]. reflexivity.
Qed.

(** C10, as amended. With the credential in place and for a body that is
    JSON other than [null], so that [repoUrl] can be taken from it, the
    test of line 63 lets through exactly the strings that start with
    [http://] or [https://].  Every other value is answered with status
    400 and nothing is done.  A string with one of the two prefixes goes on
    to [mkdtemp], and once that has returned the clone is called with this
    very string; nothing else about the string is looked at. *)
Theorem repoUrl_validation_is_prefix_test (API_KEY : option string)
    (ai : GoogleGenerativeAI) (env : Env PromptFeedback) (body v : JsValue) :
  genAI API_KEY = Some ai ->
  requestJson env = Ok body ->
  destructureRepoUrl body = Ok v ->
  invalidRepoUrl v = negb (hasHttpPrefix v)
  /\ (hasHttpPrefix v = false ->
      POST JSON_stringify API_KEY env initial
      = (Ok (json (ErrorBody "Invalid repository URL provided.") 400), initial))
  /\ (hasHttpPrefix v = true ->
      exists url rest,
        v = JString url
        /\ trace (snd (POST JSON_stringify API_KEY env initial))
           = Mkdtemp (mkdtempPrefix env) :: rest
        /\ forall suffix,
             mkdtempSuffix env = Ok suffix ->
             In (Clone (mkdtempPrefix env +++ suffix) url "." ["--depth=1"]) rest).
Proof.
  intros Hai Hbody Hv. split; [apply invalidRepoUrl_prefix |]. split.
  - intros Hno. apply (POST_rejects API_KEY ai env body v); trivial.
    now rewrite invalidRepoUrl_prefix, Hno.
  - intros Hyes. destruct v as [| | b | n | url | l | fs]; try discriminate.
    exists url. rewrite (POST_state API_KEY ai env initial Hai).
    rewrite tryBlock_run, Hbody, Hv, invalidRepoUrl_prefix, Hyes.
    cbn [negb asString initial trace tempDir app]. cbv zeta.
    destruct (mkdtempSuffix env) as [suffix | e].
    + destruct (cloneExtractGenerate_trace env url (mkdtempPrefix env +++ suffix)
                  {| tempDir := Some (mkdtempPrefix env +++ suffix);
                     trace := [Mkdtemp (mkdtempPrefix env)] |})
        as (evs & Hst & _).
      destruct (cloneExtractGenerate JSON_stringify env url
                  (mkdtempPrefix env +++ suffix) _) as [[resp | e] st1];
        cbn [snd tempDir trace] in Hst; subst st1.
      * rewrite finallyBlock_run. cbn [snd tempDir trace].
        rewrite mkdtempPrefix_truthy. cbn [trace app].
        eexists. split; [reflexivity |]. split; [reflexivity |].
        intros s [= <-]. cbn [In app]. auto.
      * destruct (quiet_catchBlock e
                    {| tempDir := Some (mkdtempPrefix env +++ suffix);
                       trace := [Mkdtemp (mkdtempPrefix env)]
                                ++ Console LogLevel
                                     ("Created temporary directory: "
                                      +++ mkdtempPrefix env +++ suffix)
                                :: Console LogLevel
                                     ("Cloning " +++ url +++ " into "
                                      +++ (mkdtempPrefix env +++ suffix) +++ "...")
                                :: Clone (mkdtempPrefix env +++ suffix) url "."
                                     ["--depth=1"]
                                :: evs |}) as (evs2 & H2 & _).
        rewrite H2, finallyBlock_run. cbn [snd tempDir trace].
        rewrite mkdtempPrefix_truthy. cbn [trace app].
        eexists. split; [reflexivity |]. split; [reflexivity |].
        intros s [= <-]. cbn [In app]. auto.
    + destruct (quiet_catchBlock e
                  {| tempDir := None; trace := [Mkdtemp (mkdtempPrefix env)] |})
        as (evs2 & H2 & _).
      rewrite H2, finallyBlock_run. cbn [snd tempDir trace app].
      eexists. split; [reflexivity |]. split; [reflexivity |]. discriminate.
Qed.

(** C4. Once [mkdtemp] has been called and has returned a directory, the
    handler ends, on every path through the [try] and [catch] blocks, with
    the [finally] block removing that directory: the trace ends with the
    call of [rm] on it, recursive and forced, and holds no other removal.
    The handler returns a response and never throws; a failed removal adds
    one line to the console and leaves the response as it was, whatever
    [rm] does. *)
Theorem temp_dir_removed_on_every_path (API_KEY : option string)
    (env : Env PromptFeedback) (suffix : string) :
  In (Mkdtemp (mkdtempPrefix env))
     (trace (snd (POST JSON_stringify API_KEY env initial))) ->
  mkdtempSuffix env = Ok suffix ->
  let d := mkdtempPrefix env +++ suffix in
  exists resp pre,
    fst (POST JSON_stringify API_KEY env initial) = Ok resp
    /\ tempDir (snd (POST JSON_stringify API_KEY env initial)) = Some d
    /\ trace (snd (POST JSON_stringify API_KEY env initial))
       = pre ++ cleanupTrace d (rm env d)
    /\ forallb (fun e => negb (isRm e)) pre = true
    /\ forall rm',
         fst (POST JSON_stringify API_KEY (withRm env rm') initial) = Ok resp.
Proof.
  intros Hin Hsuffix d.
  destruct (genAI API_KEY) as [ai |] eqn:Hai.
  2:{ unfold POST in Hin. rewrite Hai in Hin. contradiction. }
  destruct (POST_responds API_KEY env initial) as [resp Hresp].
  exists resp.
  assert (Hrm : forall rm',
             fst (POST JSON_stringify API_KEY (withRm env rm') initial) = Ok resp).
  { intros rm'. rewrite <- Hresp.
    rewrite (POST_result API_KEY ai (withRm env rm') initial Hai).
    rewrite (POST_result API_KEY ai env initial Hai).
    now rewrite tryBlock_withRm. }
  assert (Htruthy : truthyStr d = true) by apply mkdtempPrefix_truthy.
  revert Hin. rewrite (POST_state API_KEY ai env initial Hai).
  rewrite tryBlock_run. cbv zeta.
  destruct (requestJson env) as [body | e].
  2:{ rewrite finallyBlock_run. cbn. intros [H | []]. discriminate. }
  destruct (destructureRepoUrl body) as [v | e].
  2:{ rewrite finallyBlock_run. cbn. intros [H | []]. discriminate. }
  destruct (invalidRepoUrl v).
  { rewrite finallyBlock_run. cbn. contradiction. }
  rewrite Hsuffix. fold d. cbn [initial trace app]. intros _.
  destruct (cloneExtractGenerate_trace env (asString v) d
              {| tempDir := Some d; trace := [Mkdtemp (mkdtempPrefix env)] |})
    as (evs & Hst & Pevs).
  destruct (cloneExtractGenerate JSON_stringify env (asString v) d _)
    as [[resp1 | e] st1]; cbn [snd tempDir trace] in Hst; subst st1.
  - rewrite finallyBlock_run. cbn [snd tempDir trace].
    rewrite Htruthy. cbn [tempDir trace].
    eexists. split; [exact Hresp |]. split; [reflexivity |].
    split; [reflexivity |]. split; [| exact Hrm].
    rewrite forallb_app. cbn. exact Pevs.
  - destruct (quiet_catchBlock e
                {| tempDir := Some d;
                   trace := [Mkdtemp (mkdtempPrefix env)]
                            ++ Console LogLevel ("Created temporary directory: " +++ d)
                            :: Console LogLevel
                                 ("Cloning " +++ asString v +++ " into " +++ d +++ "...")
                            :: Clone d (asString v) "." ["--depth=1"]
                            :: evs |}) as (evs2 & H2 & P2).
    rewrite H2, finallyBlock_run. cbn [snd tempDir trace].
    rewrite Htruthy. cbn [tempDir trace].
    eexists. split; [exact Hresp |]. split; [reflexivity |].
    split; [reflexivity |]. split; [| exact Hrm].
    rewrite !forallb_app. cbn. now rewrite Pevs, P2.
Qed.

(** C8, as amended. When the API gives no response object, a response
    whose candidate list is missing or empty, or a response without a
    [text] accessor, and clone and walk had succeeded, the handler answers
    with status 500 and the error [Failed to generate content. Reason: R.
    Feedback: F], where [R] is the finish reason of the first candidate, or
    [Unknown] when there is none, and [F] is [JSON.stringify] of the
    provider's [promptFeedback]; it does not throw. *)
Theorem no_candidates_reported_as_failure (API_KEY : option string)
    (ai : GoogleGenerativeAI) (env : Env PromptFeedback) (body : JsValue)
    (url suffix : string) (allFiles : list string)
    (response : option (GenResponse PromptFeedback)) :
  genAI API_KEY = Some ai ->
  requestJson env = Ok body ->
  destructureRepoUrl body = Ok (JString url) ->
  hasHttpPrefix (JString url) = true ->
  mkdtempSuffix env = Ok suffix ->
  let dir := mkdtempPrefix env +++ suffix in
  gitClone env url dir = Ok tt ->
  listFiles (clonedTree env) [] [] MAX_FILES_TO_LIST = Ok allFiles ->
  generateContent env
    (prompt url (extractedContext (extractContext (fileSystem env) dir allFiles)))
  = Ok response ->
  usable response = None ->
  fst (POST JSON_stringify API_KEY env initial)
  = Ok (json (ErrorBody
               ("Failed to generate content. Reason: "
                +++ orUnknown (firstFinishReason response)
                +++ ". Feedback: " +++ showFeedback JSON_stringify response))
             500).
Proof.
  intros Hai Hbody Hv Hyes Hsuffix dir Hclone Hlist Hgen Hno.
  rewrite (POST_result API_KEY ai env initial Hai).
  rewrite tryBlock_run, Hbody, Hv, invalidRepoUrl_prefix, Hyes, Hsuffix.
  cbn [negb asString]. cbv zeta. fold dir.
  pose proof (cloneExtractGenerate_result env url dir
                {| tempDir := Some dir;
                   trace := trace initial ++ [Mkdtemp (mkdtempPrefix env)] |}
                allFiles response Hclone Hlist Hgen) as Hres.
  destruct (cloneExtractGenerate JSON_stringify env url dir _) as [r st1].
  cbn [fst] in Hres. subst r. unfold responseOutcome. now rewrite Hno.
Qed.

End HandlerProperties.

(** ** The handler on concrete requests *)

Lemma invalid_input_rejected_without_effects_witness :
  POST sampleStringify (Some "key") missingUrlEnv initial
  = (Ok (json (ErrorBody "Invalid repository URL provided.") 400), initial).
Proof.
  apply (invalid_input_rejected_without_effects sampleStringify (Some "key")
           (mkGenAI "key") missingUrlEnv
           (JObject [("url", JString helloWorldUrl)]) JUndefined).
  - reflexivity.
  - reflexivity.
  - reflexivity.
  - intros s H. discriminate H.
Defined.

(** The bare scheme [https://] is let through: the handler creates the
    temporary directory and calls the clone, and answers 500 with what the
    clone threw. *)
Lemma bare_scheme_reaches_clone :
  fst (POST sampleStringify (Some "key") bareSchemeEnv initial)
  = Ok (json (ErrorBody
               "fatal: unable to access 'https:///': URL rejected: No host part in the URL")
             500)
  /\ trace (snd (POST sampleStringify (Some "key") bareSchemeEnv initial))
     = [ Mkdtemp "/tmp/gemini-readme-";
         Console LogLevel "Created temporary directory: /tmp/gemini-readme-Xy12ab";
         Console LogLevel "Cloning https:// into /tmp/gemini-readme-Xy12ab...";
         Clone "/tmp/gemini-readme-Xy12ab" "https://" "." ["--depth=1"];
         Console ErrorLevel
           "Error in /api/generate-readme: Error: fatal: unable to access 'https:///': URL rejected: No host part in the URL";
         Console LogLevel "Cleaning up temporary directory: /tmp/gemini-readme-Xy12ab";
         Rm "/tmp/gemini-readme-Xy12ab" true true ].
Proof. split; vm_compute; reflexivity. Qed.

Lemma repoUrl_validation_is_prefix_test_witness :
  invalidRepoUrl (JString "http://this is not a url")
  = negb (hasHttpPrefix (JString "http://this is not a url"))
  /\ (hasHttpPrefix (JString "http://this is not a url") = false ->
      POST sampleStringify (Some "key") prefixedTextEnv initial
      = (Ok (json (ErrorBody "Invalid repository URL provided.") 400), initial))
  /\ (hasHttpPrefix (JString "http://this is not a url") = true ->
      exists url rest,
        JString "http://this is not a url" = JString url
        /\ trace (snd (POST sampleStringify (Some "key") prefixedTextEnv initial))
           = Mkdtemp (mkdtempPrefix prefixedTextEnv) :: rest
        /\ forall suffix,
             mkdtempSuffix prefixedTextEnv = Ok suffix ->
             In (Clone (mkdtempPrefix prefixedTextEnv +++ suffix) url "."
                   ["--depth=1"]) rest).
Proof.
  apply (repoUrl_validation_is_prefix_test sampleStringify (Some "key")
           (mkGenAI "key") prefixedTextEnv
           (bodyWith (JString "http://this is not a url"))
           (JString "http://this is not a url")); reflexivity.
Defined.

(** C10, as first stated, fails on the body [null]: it is JSON and its
    [repoUrl] is no string with one of the two prefixes, yet the answer is
    500, not 400, because taking [repoUrl] from it throws. *)
Lemma null_body_is_answered_500_not_400 :
  requestJson (sampleEnv JNull (Ok tt) (Ok (Some helloResponse)) (Ok tt))
  = Ok JNull
  /\ genAI (Some "key") = Some (mkGenAI "key")
  /\ fst (POST sampleStringify (Some "key")
            (sampleEnv JNull (Ok tt) (Ok (Some helloResponse)) (Ok tt)) initial)
     = Ok (json (ErrorBody
                  "Cannot destructure property 'repoUrl' of 'body' as it is null.")
                500)
  /\ fst (POST sampleStringify (Some "key")
            (sampleEnv JNull (Ok tt) (Ok (Some helloResponse)) (Ok tt)) initial)
     <> Ok (json (ErrorBody "Invalid repository URL provided.") 400).
Proof. repeat split; try reflexivity. vm_compute. discriminate. Qed.

Example prefixed_text_reaches_clone :
  In (Clone sampleTempDir "http://this is not a url" "." ["--depth=1"])
     (trace (snd (POST sampleStringify (Some "key") prefixedTextEnv initial))).
Proof. vm_compute. auto. Qed.

Lemma temp_dir_removed_on_every_path_witness :
  exists resp pre,
    fst (POST sampleStringify (Some "key") cloneFailsEnv initial) = Ok resp
    /\ tempDir (snd (POST sampleStringify (Some "key") cloneFailsEnv initial))
       = Some (mkdtempPrefix cloneFailsEnv +++ "Xy12ab")
    /\ trace (snd (POST sampleStringify (Some "key") cloneFailsEnv initial))
       = pre ++ cleanupTrace (mkdtempPrefix cloneFailsEnv +++ "Xy12ab")
                  (rm cloneFailsEnv (mkdtempPrefix cloneFailsEnv +++ "Xy12ab"))
    /\ forallb (fun e => negb (isRm e)) pre = true
    /\ forall rm',
         fst (POST sampleStringify (Some "key") (withRm cloneFailsEnv rm') initial)
         = Ok resp.
Proof.
  apply (temp_dir_removed_on_every_path sampleStringify (Some "key")
           cloneFailsEnv "Xy12ab").
  - vm_compute. auto.
  - reflexivity.
Defined.

(** The request of the specification's end-to-end test: the clone fails,
    the answer is 500, and the directory is removed; here the removal fails
    as well, which only shows on the console. *)
Example clone_failure_run :
  POST sampleStringify (Some "key") cloneFailsEnv initial
  = (Ok (json (ErrorBody
                "fatal: repository 'https://example.com/not-a-repo/' not found")
              500),
     {| tempDir := Some "/tmp/gemini-readme-Xy12ab";
        trace :=
          [ Mkdtemp "/tmp/gemini-readme-";
            Console LogLevel "Created temporary directory: /tmp/gemini-readme-Xy12ab";
            Console LogLevel
              "Cloning https://example.com/not-a-repo into /tmp/gemini-readme-Xy12ab...";
            Clone "/tmp/gemini-readme-Xy12ab" "https://example.com/not-a-repo" "."
              ["--depth=1"];
            Console ErrorLevel
              "Error in /api/generate-readme: Error: fatal: repository 'https://example.com/not-a-repo/' not found";
            Console LogLevel "Cleaning up temporary directory: /tmp/gemini-readme-Xy12ab";
            Rm "/tmp/gemini-readme-Xy12ab" true true;
            Console ErrorLevel
              "Failed to remove temporary directory /tmp/gemini-readme-Xy12ab: Error: EBUSY: resource busy or locked, rmdir '/tmp/gemini-readme-Xy12ab'" ] |}).
Proof. vm_compute. reflexivity. Qed.

Lemma no_candidates_reported_as_failure_witness :
  fst (POST sampleStringify (Some "key") blockedEnv initial)
  = Ok (json (ErrorBody
               ("Failed to generate content. Reason: Unknown. Feedback: "
                +++ sampleStringify {| blockReason := "SAFETY" |}))
             500).
Proof.
  apply (no_candidates_reported_as_failure sampleStringify (Some "key")
           (mkGenAI "key") blockedEnv (bodyWith (JString helloWorldUrl))
           helloWorldUrl "Xy12ab"
           ["package.json"; "src/index.js"; "src/lib/util.js"; "README.md"]
           (Some blockedResponse)); reflexivity.
Defined.

(** A response with one candidate and an empty text is answered with
    status 200 and an empty README. *)
Lemma empty_text_returned_as_readme :
  fst (POST sampleStringify (Some "key") emptyTextEnv initial)
  = Ok (json (ReadmeBody "") 200).
Proof. vm_compute. reflexivity. Qed.

Example happy_path :
  fst (POST sampleStringify (Some "key") helloEnv initial)
  = Ok (json (ReadmeBody ("# Hello" +++ nl)) 200).
Proof. vm_compute. reflexivity. Qed.

(** The body [null] is JSON, but [repoUrl] cannot be taken from it: the
    [TypeError] goes to the [catch] block. *)
Example null_body_is_internal_error :
  POST sampleStringify (Some "key")
    (sampleEnv JNull (Ok tt) (Ok (Some helloResponse)) (Ok tt)) initial
  = (Ok (json (ErrorBody
                "Cannot destructure property 'repoUrl' of 'body' as it is null.")
              500),
     {| tempDir := None;
        trace :=
          [ Console ErrorLevel
              "Error in /api/generate-readme: Error: Cannot destructure property 'repoUrl' of 'body' as it is null." ] |}).
Proof. vm_compute. reflexivity. Qed.

(** * Further properties *)

(** ** The walk, at any cap *)






Example listFiles_reads_locked_below_cap :
  listFiles (Entries ([file "a.txt"; file "b.txt"] ++ lockedBehind)) [] [] 3
  = Throw {| code := Some "EACCES";
             message := Some "EACCES: permission denied, scandir 'private'" |}.
Proof. reflexivity. Qed.

(** A walk that returns has kept what it was handed at the front. *)
Lemma listFiles_extends dir :
  forall fileList rel maxFiles l,
    listFiles dir fileList rel maxFiles = Ok l ->
    exists more, l = fileList ++ more.
Proof.
  induction dir as [e | ds IH] using Dir_nested_ind; intros fl rel mx l;
    rewrite listFiles_unfold; destruct (mx <=? length fl);
    try (intros [= <-]; exists []; now rewrite app_nil_r); try discriminate.
  revert fl. induction ds as [| d rest IHrest]; intros fl.
  - intros [= <-]. exists []. now rewrite app_nil_r.
  - inversion IH as [| ? ? IHd IHr]; subst. specialize (IHrest IHr).
    cbn [listFilesLoop]. fold (listFilesLoop rel mx).
    destruct (ignored (name d)); [now apply IHrest |].
    destruct (subdir d) as [sub |].
    + destruct (listFiles sub fl (rel ++ [name d]) mx) as [fl' | e] eqn:Hsub;
        [| discriminate].
      apply (IHd sub eq_refl) in Hsub as [m1 ->].
      destruct (mx <=? length (fl ++ m1)).
      * intros [= <-]. now exists m1.
      * intros H. apply IHrest in H as [m2 ->].
        exists (m1 ++ m2). now rewrite app_assoc.
    + cbv zeta. destruct (mx <=? length (fl ++ [joinPath (rel ++ [name d])])).
      * intros [= <-]. eauto.
      * intros H. apply IHrest in H as [m2 ->].
        eexists. now rewrite <- app_assoc.
Qed.

(** X3. Whatever the tree, readable or not, a walk that returns gives back
    the list it was handed followed by what it found, and never more than
    the cap (or than it was handed, if that was more). *)
Theorem listFiles_bounded_and_extends (dir : Dir) (fileList rel : list string)
    (maxFiles : nat) (l : list string) :
  listFiles dir fileList rel maxFiles = Ok l ->
  length l <= Nat.max maxFiles (length fileList)
  /\ exists more, l = fileList ++ more.
Proof.
  intros H. split.
  - now apply listFiles_length_le with dir rel.
  - now apply listFiles_extends with dir rel maxFiles.
Qed.

Lemma listFiles_bounded_and_extends_witness :
  length ["README.md"; "a.txt"; "b.txt"] <= Nat.max 3 (length ["README.md"])
  /\ exists more, ["README.md"; "a.txt"; "b.txt"] = ["README.md"] ++ more.
Proof.
  apply (listFiles_bounded_and_extends
           (Entries ([file "a.txt"; file "b.txt"] ++ lockedBehind))
           ["README.md"] [] 3).
  reflexivity.
Defined.

(** X4. An entry named [.git] or [node_modules] adds nothing to the
    listing and is never read: the walk gives the same outcome as on the
    directory without that entry, whatever the entry holds. *)
Theorem ignored_entry_is_never_read (ds1 : list Dirent) (d : Dirent)
    (ds2 : list Dirent) (fileList rel : list string) (maxFiles : nat) :
  ignored (name d) = true ->
  listFiles (Entries (ds1 ++ d :: ds2)) fileList rel maxFiles
  = listFiles (Entries (ds1 ++ ds2)) fileList rel maxFiles.
Proof.
  intros Hig. rewrite !listFiles_unfold.
  destruct (maxFiles <=? length fileList); [reflexivity |].
  revert fileList. induction ds1 as [| x ds1 IH]; intros fl.
  - cbn [app listFilesLoop]. now rewrite Hig.
  - cbn [app listFilesLoop]. fold (listFilesLoop rel maxFiles).
    destruct (ignored (name x)); [apply IH |].
    destruct (subdir x) as [sub |].
    + destruct (listFiles sub fl (rel ++ [name x]) maxFiles) as [fl' | e];
        [| reflexivity].
      destruct (maxFiles <=? length fl'); [reflexivity | apply IH].
    + cbv zeta.
      destruct (maxFiles <=? length (fl ++ [joinPath (rel ++ [name x])]));
        [reflexivity | apply IH].
Qed.

Lemma ignored_entry_is_never_read_witness :
  listFiles
    (Entries ([file "a.txt"]
              ++ mkDirent "node_modules" (Some (Unreadable
                   {| code := Some "EACCES"; message := None |}))
              :: [file "b.txt"])) [] [] 5
  = listFiles (Entries ([file "a.txt"] ++ [file "b.txt"])) [] [] 5.
Proof.
  apply (ignored_entry_is_never_read [file "a.txt"]
           (mkDirent "node_modules" (Some (Unreadable
              {| code := Some "EACCES"; message := None |})))
           [file "b.txt"] [] [] 5).
  reflexivity.
Defined.

(** ** The file list and the budget *)

Lemma len_nonneg (s : string) : (0 <= len s)%Z.
Proof. unfold len. lia. Qed.

Lemma fold_listLine_all files : forall listed total,
  (total + len (fileLines files) < MAX_TOTAL_CONTEXT_LENGTH)%Z ->
  fold_left listLine files (listed, total)
  = (listed +++ fileLines files, (total + len (fileLines files))%Z).
Proof.
  induction files as [| f files IH]; intros listed total Hfit.
  - cbn [fold_left fileLines fold_right]. rewrite append_nil_r.
    change (len "") with 0%Z. now rewrite Z.add_0_r.
  - cbn [fold_left fileLines fold_right] in *.
    fold (fileLines files) in *. rewrite len_append in Hfit.
    pose proof (len_nonneg (fileLines files)).
    unfold listLine at 2. cbn [fst snd].
    destruct (Z.ltb_spec (total + len ("- " +++ f +++ nl))
                MAX_TOTAL_CONTEXT_LENGTH) as [_ | Hno]; [| lia].
    rewrite IH.
    + rewrite append_assoc, (len_append ("- " +++ f +++ nl) (fileLines files)).
      f_equal. symmetry. apply Z.add_assoc.
    + rewrite <- Z.add_assoc. exact Hfit.
Qed.

(** X5. When the walk found no more files than the cap and the header with
    all the lines stays below the budget, the context lists every file, in
    the order of the walk, and the running total is the header plus those
    lines. *)
Theorem renderFileList_lists_every_file (allFiles : list string) :
  length allFiles <= MAX_FILES_TO_LIST ->
  (len header + len (fileLines allFiles) < MAX_TOTAL_CONTEXT_LENGTH)%Z ->
  renderFileList allFiles
  = ((header +++ "File List (" +++ showNat (length allFiles)
        +++ " files shown):" +++ nl)
       +++ fileLines allFiles +++ nl,
     (len header + len (fileLines allFiles))%Z).
Proof.
  intros Hle Hfit. unfold renderFileList.
  rewrite firstn_all2 by exact Hle.
  rewrite fold_listLine_all by exact Hfit.
  apply Nat.ltb_ge in Hle as Hno. rewrite Hno.
  rewrite Nat.min_l by exact Hle.
  now rewrite !append_assoc.
Qed.

Lemma renderFileList_lists_every_file_witness :
  renderFileList ["package.json"; "src/index.js"]
  = ((header +++ "File List (" +++ showNat 2 +++ " files shown):" +++ nl)
       +++ fileLines ["package.json"; "src/index.js"] +++ nl,
     (len header + len (fileLines ["package.json"; "src/index.js"]))%Z).
Proof.
  apply (renderFileList_lists_every_file ["package.json"; "src/index.js"]).
  - apply Nat.leb_le. reflexivity.
  - reflexivity.
Defined.

Lemma showNat_short n : n <= MAX_FILES_TO_LIST -> (len (showNat n) <= 3)%Z.
Proof.
  intros Hn.
  assert (Hall : forallb (fun k => (len (showNat k) <=? 3)%Z)
                   (seq 0 (S MAX_FILES_TO_LIST)) = true) by (vm_compute; reflexivity).
  rewrite forallb_forall in Hall. apply Z.leb_le, Hall, in_seq. lia.
Qed.

(** X6. For whatever the walk returned, the running total stays below the
    budget of 15000, and the context itself is at most 82 characters longer
    than the budget: the lines that are appended without being counted. *)
Theorem context_length_bound (fs : Fs) (tempDir : string) (root : Dir)
    (allFiles : list string) :
  listFiles root [] [] MAX_FILES_TO_LIST = Ok allFiles ->
  let c := extractContext fs tempDir allFiles in
  (totalContextLength c < MAX_TOTAL_CONTEXT_LENGTH)%Z
  /\ (len (extractedContext c) <= MAX_TOTAL_CONTEXT_LENGTH + 82)%Z.
Proof.
  intros Hwalk c.
  assert (Hle : length allFiles <= MAX_FILES_TO_LIST).
  { apply listFiles_length_le in Hwalk. cbn [length] in Hwalk. lia. }
  destruct (extractContext_accounting fs tempDir allFiles Hle) as [Hlen Hlt].
  fold c in Hlen, Hlt. split; [exact Hlt |]. rewrite Hlen.
  assert (Hu : (len (uncounted allFiles (filesReadCount c)) <= 83)%Z).
  { unfold uncounted. rewrite !len_append.
    pose proof (showNat_short (Nat.min (length allFiles) MAX_FILES_TO_LIST)
                  (Nat.le_min_r _ _)) as Hs.
    change (len "File List (") with 11%Z in *.
    change (len " files shown):") with 14%Z in *.
    change (len "Key File Contents:") with 18%Z in *.
    change (len nl) with 1%Z in *.
    destruct (filesReadCount c =? 0);
      [change (len noKeyFiles) with 34%Z | change (len "") with 0%Z]; lia. }
  lia.
Qed.

Lemma context_length_bound_witness :
  let c := extractContext deepManifestFs sampleTempDir
             ["packages/frontend-application/web/package.json"] in
  (totalContextLength c < MAX_TOTAL_CONTEXT_LENGTH)%Z
  /\ (len (extractedContext c) <= MAX_TOTAL_CONTEXT_LENGTH + 82)%Z.
Proof.
  apply (context_length_bound deepManifestFs sampleTempDir deepManifest
           ["packages/frontend-application/web/package.json"]).
  reflexivity.
Defined.

(** ** The key files *)

Lemma keyFileStep_count fs tempDir allFiles c key :
  filesReadCount c <= MAX_FILE_CONTENT_TO_INCLUDE ->
  filesReadCount (stateOf (keyFileStep fs tempDir allFiles c key))
  <= MAX_FILE_CONTENT_TO_INCLUDE.
Proof.
  intros Hc. unfold keyFileStep.
  destruct (Nat.leb_spec MAX_FILE_CONTENT_TO_INCLUDE (filesReadCount c));
    [exact Hc |].
  repeat match goal with
         | |- context [match ?x with _ => _ end] => destruct x
         end; cbn [stateOf warn appendSection filesReadCount]; lia.
Qed.

Lemma keyFileLoop_count fs tempDir allFiles keys : forall c,
  filesReadCount c <= MAX_FILE_CONTENT_TO_INCLUDE ->
  filesReadCount (stateOf (keyFileLoop fs tempDir allFiles keys c))
  <= MAX_FILE_CONTENT_TO_INCLUDE.
Proof.
  unfold keyFileLoop. induction keys as [| k keys IH]; intros c Hc; simpl;
    [exact Hc |].
  pose proof (keyFileStep_count fs tempDir allFiles c k Hc) as H.
  destruct (keyFileStep fs tempDir allFiles c k) as [c1 | c1]; simpl in *; auto.
Qed.

Lemma sectionsText_app (l1 l2 : list string) :
  sectionsText (l1 ++ l2) = sectionsText l1 +++ sectionsText l2.
Proof.
  induction l1 as [| x l1 IH]; cbn [app sectionsText fold_right];
    [reflexivity |].
  fold (sectionsText (l1 ++ l2)) (sectionsText l1).
  now rewrite IH, append_assoc.
Qed.

Lemma sectionOfKey_more fs tempDir allFiles key keys section :
  sectionOfKey fs tempDir allFiles keys section ->
  sectionOfKey fs tempDir allFiles (key :: keys) section.
Proof.
  intros (k & a & t & total & Hin & Hc & Hs).
  exists k, a, t, total. repeat split; trivial. now right.
Qed.

(** One round appends no section or the section of its key, and counts it. *)
Lemma keyFileStep_sections fs tempDir allFiles c key :
  exists sections,
    let c' := stateOf (keyFileStep fs tempDir allFiles c key) in
    extractedContext c' = extractedContext c +++ sectionsText sections
    /\ filesReadCount c' = filesReadCount c + length sections
    /\ Forall (sectionOfKey fs tempDir allFiles [key]) sections.
Proof.
  destruct (Nat.lt_ge_cases (filesReadCount c) MAX_FILE_CONTENT_TO_INCLUDE)
    as [Hlt | Hge].
  2:{ rewrite (step_at_cap fs tempDir allFiles c key Hge).
      exists []. cbn. now rewrite append_nil_r, Nat.add_0_r. }
  destruct (candidate fs tempDir allFiles key) as [[actual content] |] eqn:Hcand.
  - rewrite (step_candidate fs tempDir allFiles c key actual content Hlt Hcand).
    cbv zeta.
    destruct (totalContextLength c
              + len (sectionOf actual content (totalContextLength c))
              <? MAX_TOTAL_CONTEXT_LENGTH)%Z.
    + exists [sectionOf actual content (totalContextLength c)].
      cbn [stateOf appendSection extractedContext filesReadCount
           sectionsText fold_right length].
      rewrite append_nil_r. split; [reflexivity |]. split; [lia |].
      constructor; [| constructor].
      exists key, actual, content, (totalContextLength c).
      repeat split; trivial. now left.
    + exists []. cbn. now rewrite append_nil_r, Nat.add_0_r.
  - destruct (step_no_candidate fs tempDir allFiles c key Hlt Hcand)
      as (c' & -> & Hctx & _ & Hcount).
    exists []. cbn [stateOf sectionsText fold_right length].
    now rewrite append_nil_r, Nat.add_0_r, Hctx, Hcount.
Qed.

Lemma keyFileLoop_sections fs tempDir allFiles keys : forall c,
  exists sections,
    let c' := stateOf (keyFileLoop fs tempDir allFiles keys c) in
    extractedContext c' = extractedContext c +++ sectionsText sections
    /\ filesReadCount c' = filesReadCount c + length sections
    /\ Forall (sectionOfKey fs tempDir allFiles keys) sections.
Proof.
  induction keys as [| k keys IH]; intros c.
  - exists []. cbn. now rewrite append_nil_r, Nat.add_0_r.
  - destruct (keyFileStep_sections fs tempDir allFiles c k)
      as (s1 & H1 & N1 & P1). cbv zeta in H1, N1.
    assert (P1' : Forall (sectionOfKey fs tempDir allFiles (k :: keys)) s1).
    { eapply Forall_impl; [| exact P1].
      intros s (k' & a & t & total & Hin & Hc & Hs).
      exists k', a, t, total. repeat split; trivial.
      destruct Hin as [Hk | []]. left. exact Hk. }
    rewrite loop_cons.
    destruct (keyFileStep fs tempDir allFiles c k) as [c1 | c1];
      cbn [stateOf] in H1, N1.
    + destruct (IH c1) as (s2 & H2 & N2 & P2). cbv zeta in H2, N2.
      exists (s1 ++ s2). cbv zeta.
      rewrite H2, H1, N2, N1, sectionsText_app, append_assoc, length_app.
      split; [reflexivity |]. split; [lia |].
      apply Forall_app. split; [exact P1' |].
      eapply Forall_impl; [| exact P2]. intros s. apply sectionOfKey_more.
    + exists s1. cbn [stateOf]. repeat split; trivial.
Qed.

(** X7. However many of the thirteen key names have a file in the
    repository, at most ten key files go into the context: what the
    extraction appends after the line [Key File Contents:] is a list of at
    most ten sections, each the wrapped text of the file found for one of
    the key names, followed by the note when the list is empty; and
    [filesReadCount] is the number of these sections. *)
Theorem at_most_ten_key_files (fs : Fs) (tempDir : string)
    (allFiles : list string) :
  let c := extractContext fs tempDir allFiles in
  exists sections,
    length sections <= MAX_FILE_CONTENT_TO_INCLUDE
    /\ filesReadCount c = length sections
    /\ extractedContext c
       = extractedContext (keyFilesStart allFiles)
           +++ sectionsText sections
           +++ (match sections with [] => noKeyFiles | _ => "" end)
    /\ Forall (sectionOfKey fs tempDir allFiles keyFiles) sections.
Proof.
  destruct (keyFileLoop_sections fs tempDir allFiles keyFiles
              (keyFilesStart allFiles)) as (sections & Hctx & Hn & Hall).
  cbv zeta in Hctx, Hn.
  assert (H0 : filesReadCount (keyFilesStart allFiles) = 0)
    by (unfold keyFilesStart; now destruct (renderFileList allFiles)).
  assert (Hle : filesReadCount
                  (stateOf (keyFileLoop fs tempDir allFiles keyFiles
                              (keyFilesStart allFiles)))
                <= MAX_FILE_CONTENT_TO_INCLUDE)
    by (apply keyFileLoop_count; rewrite H0; apply Nat.le_0_l).
  rewrite H0 in Hn. cbn [Nat.add] in Hn.
  exists sections. unfold extractContext.
  destruct (stateOf (keyFileLoop fs tempDir allFiles keyFiles
                       (keyFilesStart allFiles))) as [ctx total n ws].
  cbn [extractedContext filesReadCount] in *. subst n.
  split; [exact Hle |].
  destruct sections as [| s1 rest];
    cbn [length Nat.eqb extractedContext filesReadCount].
  - split; [reflexivity |]. split; [| exact Hall].
    now rewrite Hctx, append_assoc.
  - split; [reflexivity |]. split; [| exact Hall].
    now rewrite Hctx, append_nil_r.
Qed.

Example two_key_files_two_sections :
  let c := extractContext smallRepoFs sampleTempDir
             ["package.json"; "src/index.js"; "src/lib/util.js"; "README.md"] in
  filesReadCount c = 2
  /\ extractedContext c
     = extractedContext
         (keyFilesStart
            ["package.json"; "src/index.js"; "src/lib/util.js"; "README.md"])
       +++ sectionsText
             [ nl +++ "--- File: package.json ---" +++ nl +++ "# Hello"
                  +++ nl +++ "---" +++ nl;
               nl +++ "--- File: README.md ---" +++ nl +++ "# Hello"
                  +++ nl +++ "---" +++ nl ].
Proof. vm_compute. split; reflexivity. Qed.

Lemma length_substring0 (n : nat) (s : string) :
  String.length (substring 0 n s) = Nat.min n (String.length s).
Proof.
  revert n. induction s as [| ch s IH]; intros [| n]; simpl; auto.
Qed.



Lemma len_slice0 (s : string) (e : Z) :
  len (slice0 s e)
  = if (e <? 0)%Z then Z.max (len s + e) 0 else Z.min e (len s).
Proof.
  unfold slice0, len. rewrite length_substring0.
  destruct (Z.ltb_spec e 0); lia.
Qed.

Lemma len_sectionOf (actual content : string) (total : Z) :
  len (sectionOf actual content total)
  = (21 + len actual
     + len (slice0 content (MAX_TOTAL_CONTEXT_LENGTH - total - 100)))%Z.
Proof.
  unfold sectionOf. rewrite !len_append.
  change (len nl) with 1%Z. change (len "--- File: ") with 10%Z.
  change (len " ---") with 4%Z. change (len "---") with 3%Z. lia.
Qed.



(** X9. A key file whose path is 79 characters or longer and whose text
    fills the budget left minus 100 never fits, however much of the budget
    is left: its section is built, found too long, and the loop stops
    there without reading any further key file. *)
Theorem long_path_key_file_stops_loop (fs : Fs) (tempDir : string)
    (allFiles : list string) (c : Ctx) (key actual content : string)
    (rest : list string) :
  filesReadCount c < MAX_FILE_CONTENT_TO_INCLUDE ->
  candidate fs tempDir allFiles key = Some (actual, content) ->
  (totalContextLength c <= MAX_TOTAL_CONTEXT_LENGTH - 100)%Z ->
  (MAX_TOTAL_CONTEXT_LENGTH - totalContextLength c - 100 <= len content)%Z ->
  (79 <= len actual)%Z ->
  keyFileLoop fs tempDir allFiles (key :: rest) c = Break c.
Proof.
  intros Hc Hcand Hroom Hlong Hpath. rewrite loop_cons.
  rewrite (step_candidate fs tempDir allFiles c key actual content Hc Hcand).
  cbv zeta. rewrite len_sectionOf, len_slice0.
  destruct (Z.ltb_spec (MAX_TOTAL_CONTEXT_LENGTH - totalContextLength c - 100) 0);
    [lia |].
  destruct (Z.ltb_spec
              (totalContextLength c
               + (21 + len actual
                  + Z.min (MAX_TOTAL_CONTEXT_LENGTH - totalContextLength c - 100)
                      (len content)))
              MAX_TOTAL_CONTEXT_LENGTH) as [Hyes | _]; [lia | reflexivity].
Qed.

Lemma long_path_key_file_stops_loop_witness :
  keyFileLoop longReadmeFs sampleTempDir longReadmeFiles
    ("README.md" :: ["README.rst"]) beforeReadme
  = Break beforeReadme.
Proof.
  apply (long_path_key_file_stops_loop longReadmeFs sampleTempDir
           longReadmeFiles beforeReadme "README.md" longReadmePath longReadme
           ["README.rst"]).
  - apply Nat.ltb_lt. vm_compute. reflexivity.
  - reflexivity.
  - apply Z.leb_le. vm_compute. reflexivity.
  - apply Z.leb_le. vm_compute. reflexivity.
  - apply Z.leb_le. vm_compute. reflexivity.
Defined.

(** ** The handler: answers and calls *)

Lemma answers_bind {A} (P : HttpResponse -> Prop) (m : IO A)
    (k : A -> IO HttpResponse) :
  (forall a, answers P (k a)) -> answers P (bind m k).
Proof.
  intros Hk st r. unfold bind.
  destruct (m st) as [[a | e] st1]; [apply Hk | discriminate].
Qed.

Lemma consoleOnly_ret {A} (a : A) : consoleOnly (ret a).
Proof. intros [d t]. exists []. simpl. now rewrite app_nil_r. Qed.

Lemma consoleOnly_await {A} (r : Result A) : consoleOnly (await r).
Proof. intros [d t]. exists []. simpl. now rewrite app_nil_r. Qed.

Lemma consoleOnly_console l msg : consoleOnly (console l msg).
Proof. intros st. now exists [Console l msg]. Qed.

Lemma consoleOnly_bind {A B} (m : IO A) (k : A -> IO B) :
  consoleOnly m -> (forall a, consoleOnly (k a)) -> consoleOnly (bind m k).
Proof.
  intros Hm Hk st. unfold bind.
  destruct (Hm st) as (evs1 & H1 & P1).
  destruct (m st) as [[a | e] st1]; simpl in H1; subst st1.
  - destruct (Hk a {| tempDir := tempDir st; trace := trace st ++ evs1 |})
      as (evs2 & H2 & P2).
    exists (evs1 ++ evs2). rewrite H2. simpl.
    now rewrite app_assoc, forallb_app, P1, P2.
  - now exists evs1.
Qed.

Lemma consoleOnly_catchBlock e : consoleOnly (catchBlock e).
Proof.
  unfold catchBlock. apply consoleOnly_bind;
    [apply consoleOnly_console | intros _; apply consoleOnly_ret].
Qed.

Lemma truthyStr_nonempty s : truthyStr s = true -> s <> "".
Proof. now destruct s. Qed.

(** The [catch] block answers 500 with an error text that is not empty. *)
Lemma catchBlock_answer e st :
  exists msg, msg <> "" /\ fst (catchBlock e st) = Ok (json (ErrorBody msg) 500).
Proof.
  unfold catchBlock, bind, console, emit, ret. cbn [fst].
  repeat match goal with
         | |- context [if ?b then _ else _] => destruct b eqn:?
         | |- context [match message e with _ => _ end] =>
             destruct (message e) eqn:?
         end;
    eexists; (split; [| reflexivity]);
    try discriminate; now apply truthyStr_nonempty.
Qed.

Lemma bind_await_throw {A B} (r : Result A) (e : JsError) (k : A -> IO B) st :
  r = Throw e -> bind (await r) k st = (Throw e, st).
Proof. intros ->. reflexivity. Qed.

Lemma no_generate_in_console evs model p :
  forallb isConsole evs = true -> ~ In (GenerateContent model p) evs.
Proof.
  intros Hall Hin. rewrite forallb_forall in Hall.
  apply Hall in Hin. discriminate.
Qed.

Lemma no_generate_in_cleanup d outcome model p :
  ~ In (GenerateContent model p) (cleanupTrace d outcome).
Proof.
  unfold cleanupTrace. destruct outcome; cbn [In app];
    intuition discriminate.
Qed.

Section HandlerAnswers.

Context {PromptFeedback : Type}.
Variable JSON_stringify : PromptFeedback -> string.

Lemma answers_processResponse (response : option (GenResponse PromptFeedback)) :
  answers pipelineAnswer (processResponse JSON_stringify response).
Proof.
  intros st r. rewrite processResponse_result. unfold responseOutcome.
  destruct (usable response) as [[t | e] |]; intros [= <-].
  - left. now exists t.
  - right. eexists. split; [| reflexivity].
    unfold failedToGenerate. discriminate.
Qed.

Lemma answers_cloneExtractGenerate (env : Env PromptFeedback) url dir :
  answers pipelineAnswer (cloneExtractGenerate JSON_stringify env url dir).
Proof.
  unfold cloneExtractGenerate.
  repeat (apply answers_bind; intros ?).
  apply answers_processResponse.
Qed.

Lemma consoleOnly_processResponse (response : option (GenResponse PromptFeedback)) :
  consoleOnly (processResponse JSON_stringify response).
Proof.
  unfold processResponse. destruct (usable response).
  - apply consoleOnly_bind; [apply consoleOnly_await | intros; apply consoleOnly_ret].
  - apply consoleOnly_bind; [apply consoleOnly_console | intros; apply consoleOnly_ret].
Qed.

(** X11. Whatever the request and whatever the outside world does, the
    handler returns one of three answers: 200 with the README text, the
    400 rejection of the URL, or 500 with an error text that is not
    empty.  It never throws. *)
Theorem POST_answers_are_well_formed (API_KEY : option string)
    (env : Env PromptFeedback) (st : St) :
  exists r,
    fst (POST JSON_stringify API_KEY env st) = Ok r /\ wellFormedAnswer r.
Proof.
  destruct (genAI API_KEY) as [ai |] eqn:Hai.
  2:{ unfold POST. rewrite Hai. eexists. split; [reflexivity |].
      right. right. eexists. split; [| reflexivity]. discriminate. }
  rewrite (POST_result JSON_stringify API_KEY ai env st Hai).
  destruct (tryBlock JSON_stringify ai env st) as [[r | e] st1] eqn:Htry.
  - exists r. split; [reflexivity |].
    rewrite tryBlock_run in Htry.
    destruct (requestJson env) as [body | e]; [| discriminate].
    destruct (destructureRepoUrl body) as [v | e]; [| discriminate].
    destruct (invalidRepoUrl v).
    { injection Htry as <- _. right. now left. }
    cbv zeta in Htry.
    destruct (mkdtempSuffix env) as [suffix | e]; [| discriminate].
    assert (Hp : pipelineAnswer r)
      by (eapply (answers_cloneExtractGenerate env); rewrite Htry; reflexivity).
    destruct Hp as [Hp | Hp]; [now left | now right; right].
  - destruct (catchBlock_answer e st1) as (msg & Hmsg & Hres).
    exists (json (ErrorBody msg) 500). split; [exact Hres |].
    right. right. now exists msg.
Qed.

(** X10. When [mkdtemp] itself fails with the code [ENOENT], the handler
    answers 500 with the text about a failed clone, although no clone was
    attempted: the trace holds the call of [mkdtemp] and the console line,
    no clone and no removal. *)
Theorem mkdtemp_ENOENT_reported_as_clone_failure (API_KEY : option string)
    (ai : GoogleGenerativeAI) (env : Env PromptFeedback) (body v : JsValue)
    (e : JsError) :
  genAI API_KEY = Some ai ->
  requestJson env = Ok body ->
  destructureRepoUrl body = Ok v ->
  hasHttpPrefix v = true ->
  mkdtempSuffix env = Throw e ->
  isENOENT e = true ->
  POST JSON_stringify API_KEY env initial
  = (Ok (json (ErrorBody
                "Failed to clone repository. Check URL and ensure it's public.")
              500),
     {| tempDir := None;
        trace := [ Mkdtemp (mkdtempPrefix env);
                   Console ErrorLevel
                     ("Error in /api/generate-readme: " +++ showError e) ] |}).
Proof.
  intros Hai Hbody Hv Hyes Hmk Hcode.
  unfold POST, tryCatchFinally. rewrite Hai.
  rewrite tryBlock_run, Hbody, Hv, invalidRepoUrl_prefix, Hyes, Hmk.
  cbn [negb]. cbv zeta.
  unfold catchBlock, bind, console, emit, ret. cbn [fst snd tempDir trace initial app].
  unfold isENOENT in Hcode. rewrite Hcode. cbn [orb].
  rewrite finallyBlock_run. reflexivity.
Qed.

(** X12. A body that is not JSON, or the JSON value [null], is not
    answered with 400: the exception goes to the [catch] block, the answer
    is 500, and nothing was created, cloned or removed. *)
Theorem unreadable_body_is_internal_error (API_KEY : option string)
    (ai : GoogleGenerativeAI) (env : Env PromptFeedback) (e : JsError) :
  genAI API_KEY = Some ai ->
  requestJson env = Throw e
  \/ (requestJson env = Ok JNull /\ e = cannotDestructure) ->
  exists msg,
    msg <> ""
    /\ POST JSON_stringify API_KEY env initial
       = (Ok (json (ErrorBody msg) 500),
          {| tempDir := None;
             trace := [ Console ErrorLevel
                          ("Error in /api/generate-readme: " +++ showError e) ] |}).
Proof.
  intros Hai Hbody.
  destruct (catchBlock_answer e initial) as (msg & Hmsg & Hres).
  exists msg. split; [exact Hmsg |].
  assert (Htry : tryBlock JSON_stringify ai env initial = (Throw e, initial)).
  { rewrite tryBlock_run. destruct Hbody as [-> | [-> ->]]; reflexivity. }
  unfold POST, tryCatchFinally. rewrite Hai, Htry.
  destruct (catchBlock e initial) as [r2 st2] eqn:Hc.
  cbn [fst] in Hres. subst r2.
  assert (st2 = {| tempDir := None;
                   trace := [ Console ErrorLevel
                                ("Error in /api/generate-readme: " +++ showError e) ] |})
    as -> by (unfold catchBlock, bind, console, emit, ret in Hc; now injection Hc).
  rewrite finallyBlock_run. reflexivity.
Qed.

(** The part of [cloneExtractGenerate] after the request to the API has
    gone out only writes to the console. *)
Lemma cloneExtractGenerate_run (env : Env PromptFeedback) url dir st allFiles :
  gitClone env url dir = Ok tt ->
  listFiles (clonedTree env) [] [] MAX_FILES_TO_LIST = Ok allFiles ->
  let c := extractContext (fileSystem env) dir allFiles in
  exists evs,
    snd (cloneExtractGenerate JSON_stringify env url dir st)
    = {| tempDir := tempDir st;
         trace := (trace st
                   ++ [ Console LogLevel ("Created temporary directory: " +++ dir);
                        Console LogLevel
                          ("Cloning " +++ url +++ " into " +++ dir +++ "...");
                        Clone dir url "." ["--depth=1"];
                        Console LogLevel "Repository cloned successfully.";
                        Console LogLevel "Extracting repository information..." ]
                   ++ map (Console WarnLevel) (warnings c)
                   ++ [ Console LogLevel
                          ("Extracted context length: "
                           +++ showNat (Z.to_nat (totalContextLength c))
                           +++ " characters.");
                        Console LogLevel "Sending prompt to Gemini...";
                        GenerateContent "gemini-1.5-flash"
                          (prompt url (extractedContext c)) ])
                  ++ evs |}
    /\ forallb isConsole evs = true.
Proof.
  intros Hclone Hlist c. unfold cloneExtractGenerate.
  rewrite !bind_console, bind_emit.
  rewrite (bind_await_ok _ _ _ _ Hclone), !bind_console.
  rewrite (bind_await_ok _ _ _ _ Hlist). cbv zeta. fold c.
  rewrite bind_forEach_console, !bind_console, bind_emit.
  cbn [tempDir trace].
  match goal with
  | |- context [bind (await ?r) ?k ?s] =>
      assert (Hk : consoleOnly (bind (await r) k))
        by (apply consoleOnly_bind; [apply consoleOnly_await |];
            intros response; apply consoleOnly_bind;
            [apply consoleOnly_console | intros _; apply consoleOnly_processResponse]);
      destruct (Hk s) as (evs & Hevs & Pevs)
  end.
  exists evs. split; [| exact Pevs].
  rewrite Hevs. cbn [tempDir trace]. f_equal.
  rewrite <- !app_assoc. reflexivity.
Qed.

(** X13. The generative API is only called after clone and walk have
    returned: every call on the trace is the one call with the model
    [gemini-1.5-flash] and the prompt built from the validated URL and the
    context extracted from the cloned tree. *)
Theorem generation_only_after_clone_and_walk (API_KEY : option string)
    (env : Env PromptFeedback) (model p : string) :
  In (GenerateContent model p)
     (trace (snd (POST JSON_stringify API_KEY env initial))) ->
  exists body url suffix allFiles,
    requestJson env = Ok body
    /\ destructureRepoUrl body = Ok (JString url)
    /\ hasHttpPrefix (JString url) = true
    /\ mkdtempSuffix env = Ok suffix
    /\ gitClone env url (mkdtempPrefix env +++ suffix) = Ok tt
    /\ listFiles (clonedTree env) [] [] MAX_FILES_TO_LIST = Ok allFiles
    /\ model = "gemini-1.5-flash"
    /\ p = prompt url
             (extractedContext
                (extractContext (fileSystem env) (mkdtempPrefix env +++ suffix)
                   allFiles)).
Proof.
  destruct (genAI API_KEY) as [ai |] eqn:Hai.
  2:{ unfold POST. rewrite Hai. contradiction. }
  rewrite (POST_state JSON_stringify API_KEY ai env initial Hai).
  rewrite tryBlock_run. cbv zeta.
  destruct (requestJson env) as [body | e].
  2:{ rewrite finallyBlock_run. cbn. intuition discriminate. }
  destruct (destructureRepoUrl body) as [v | e] eqn:Hv.
  2:{ rewrite finallyBlock_run. cbn. intuition discriminate. }
  rewrite invalidRepoUrl_prefix.
  destruct (hasHttpPrefix v) eqn:Hyes; cbn [negb].
  2:{ rewrite finallyBlock_run. cbn. contradiction. }
  destruct v as [| | b | n | url | l | fs]; try discriminate.
  cbn [asString initial trace tempDir app].
  destruct (mkdtempSuffix env) as [suffix | e].
  2:{ rewrite finallyBlock_run. cbn. intuition discriminate. }
  set (dir := mkdtempPrefix env +++ suffix).
  set (st0 := {| tempDir := Some dir; trace := [Mkdtemp (mkdtempPrefix env)] |}).
  assert (Hcatch : forall e st1,
             tempDir st1 = Some dir ->
             In (GenerateContent model p)
                (trace (snd (finallyBlock env (snd (catchBlock e st1))))) ->
             In (GenerateContent model p) (trace st1)).
  { intros e st1 Hd.
    destruct (consoleOnly_catchBlock e st1) as (evs & -> & Pevs).
    rewrite finallyBlock_run. cbn [snd tempDir trace]. rewrite Hd.
    destruct (truthyStr dir); cbn [trace]; intros H.
    - apply in_app_iff in H as [H | H];
        [apply in_app_iff in H as [H | H] |];
        [ exact H
        | now apply no_generate_in_console in H
        | now apply no_generate_in_cleanup in H ].
    - apply in_app_iff in H as [H | H];
        [exact H | now apply no_generate_in_console in H]. }
  destruct (gitClone env url dir) as [[] | e] eqn:Hclone.
  2:{ unfold cloneExtractGenerate.
      rewrite !bind_console, bind_emit, (bind_await_throw _ _ _ _ Hclone).
      intros H. apply Hcatch in H; [| reflexivity].
      cbn in H. intuition discriminate. }
  destruct (listFiles (clonedTree env) [] [] MAX_FILES_TO_LIST)
    as [allFiles | e] eqn:Hlist.
  2:{ unfold cloneExtractGenerate.
      rewrite !bind_console, bind_emit, (bind_await_ok _ _ _ _ Hclone).
      rewrite !bind_console, (bind_await_throw _ _ _ _ Hlist).
      intros H. apply Hcatch in H; [| reflexivity].
      cbn in H. intuition discriminate. }
  intros Hin. exists body, url, suffix, allFiles.
  repeat (split; [reflexivity || assumption |]).
  destruct (cloneExtractGenerate_run env url dir st0 allFiles Hclone Hlist)
    as (evs & Hst & Pevs). cbv zeta in Hst.
  assert (Hhere : In (GenerateContent model p) (trace (snd
                    (cloneExtractGenerate JSON_stringify env url dir st0)))).
  { destruct (cloneExtractGenerate JSON_stringify env url dir st0)
      as [[r | e] st1] eqn:Hrun; cbn [snd] in Hin, Hst |- *;
      assert (Htd : tempDir st1 = Some dir) by (rewrite Hst; reflexivity).
    - rewrite finallyBlock_run in Hin. cbn [snd] in Hin. rewrite Htd in Hin.
      destruct (truthyStr dir); cbn [trace] in Hin; [| exact Hin].
      apply in_app_iff in Hin as [Hin | Hin]; [exact Hin |].
      now apply no_generate_in_cleanup in Hin.
    - now apply Hcatch in Hin. }
  rewrite Hst in Hhere. cbn [trace] in Hhere.
  apply in_app_iff in Hhere as [H | H];
    [| now apply no_generate_in_console in H].
  apply in_app_iff in H as [H | H]; [cbn in H; intuition discriminate |].
  apply in_app_iff in H as [H | H]; [cbn in H; intuition discriminate |].
  apply in_app_iff in H as [H | H].
  { apply in_map_iff in H as (w & H & _). discriminate. }
  destruct H as [H | [H | [H | []]]]; try discriminate.
  injection H as <- <-. split; reflexivity.
Qed.

(** X14. When clone, walk and the call of the API have returned and the
    response has a candidate, the text that [response.text()] gives is
    answered with status 200 as it is, the empty text included. *)
Theorem generated_text_is_returned_unmodified (API_KEY : option string)
    (ai : GoogleGenerativeAI) (env : Env PromptFeedback) (body : JsValue)
    (url suffix : string) (allFiles : list string)
    (response : option (GenResponse PromptFeedback)) (readmeText : string) :
  genAI API_KEY = Some ai ->
  requestJson env = Ok body ->
  destructureRepoUrl body = Ok (JString url) ->
  hasHttpPrefix (JString url) = true ->
  mkdtempSuffix env = Ok suffix ->
  let dir := mkdtempPrefix env +++ suffix in
  gitClone env url dir = Ok tt ->
  listFiles (clonedTree env) [] [] MAX_FILES_TO_LIST = Ok allFiles ->
  generateContent env
    (prompt url (extractedContext (extractContext (fileSystem env) dir allFiles)))
  = Ok response ->
  usable response = Some (Ok readmeText) ->
  fst (POST JSON_stringify API_KEY env initial)
  = Ok (json (ReadmeBody readmeText) 200).
Proof.
  intros Hai Hbody Hv Hyes Hsuffix dir Hclone Hlist Hgen Htext.
  rewrite (POST_result JSON_stringify API_KEY ai env initial Hai).
  rewrite tryBlock_run, Hbody, Hv, invalidRepoUrl_prefix, Hyes, Hsuffix.
  cbn [negb asString]. cbv zeta. fold dir.
  pose proof (cloneExtractGenerate_result JSON_stringify env url dir
                {| tempDir := Some dir;
                   trace := trace initial ++ [Mkdtemp (mkdtempPrefix env)] |}
                allFiles response Hclone Hlist Hgen) as Hres.
  destruct (cloneExtractGenerate JSON_stringify env url dir _) as [r st1].
  cbn [fst] in Hres. subst r. unfold responseOutcome. now rewrite Htext.
Qed.

(** X15. When [response.text()] throws, as the SDK does for a blocked
    candidate, the handler answers 500 and the error is the message of
    that exception, word for word, provided the message is not empty, does
    not mention [Authentication failed] or [mkdtemp], and the exception
    does not carry the code [ENOENT]. *)
Theorem text_exception_message_is_surfaced (API_KEY : option string)
    (ai : GoogleGenerativeAI) (env : Env PromptFeedback) (body : JsValue)
    (url suffix : string) (allFiles : list string)
    (response : option (GenResponse PromptFeedback)) (e : JsError)
    (msg : string) :
  genAI API_KEY = Some ai ->
  requestJson env = Ok body ->
  destructureRepoUrl body = Ok (JString url) ->
  hasHttpPrefix (JString url) = true ->
  mkdtempSuffix env = Ok suffix ->
  let dir := mkdtempPrefix env +++ suffix in
  gitClone env url dir = Ok tt ->
  listFiles (clonedTree env) [] [] MAX_FILES_TO_LIST = Ok allFiles ->
  generateContent env
    (prompt url (extractedContext (extractContext (fileSystem env) dir allFiles)))
  = Ok response ->
  usable response = Some (Throw e) ->
  message e = Some msg ->
  truthyStr msg = true ->
  isENOENT e = false ->
  includes msg "Authentication failed" = false ->
  includes msg "mkdtemp" = false ->
  fst (POST JSON_stringify API_KEY env initial) = Ok (json (ErrorBody msg) 500).
Proof.
  intros Hai Hbody Hv Hyes Hsuffix dir Hclone Hlist Hgen Htext
         Hmsg Htruthy Hcode Hauth Hmk.
  rewrite (POST_result JSON_stringify API_KEY ai env initial Hai).
  rewrite tryBlock_run, Hbody, Hv, invalidRepoUrl_prefix, Hyes, Hsuffix.
  cbn [negb asString]. cbv zeta. fold dir.
  pose proof (cloneExtractGenerate_result JSON_stringify env url dir
                {| tempDir := Some dir;
                   trace := trace initial ++ [Mkdtemp (mkdtempPrefix env)] |}
                allFiles response Hclone Hlist Hgen) as Hres.
  destruct (cloneExtractGenerate JSON_stringify env url dir _) as [r st1].
  cbn [fst] in Hres. subst r. unfold responseOutcome. rewrite Htext.
  unfold catchBlock, bind, console, emit, ret, messageIncludes. cbn [fst].
  unfold isENOENT in Hcode. now rewrite Hcode, Hmsg, Hauth, Hmk, Htruthy.
Qed.

End HandlerAnswers.

Lemma mkdtemp_ENOENT_reported_as_clone_failure_witness :
  POST sampleStringify (Some "key") noTmpdirEnv initial
  = (Ok (json (ErrorBody
                "Failed to clone repository. Check URL and ensure it's public.")
              500),
     {| tempDir := None;
        trace := [ Mkdtemp (mkdtempPrefix noTmpdirEnv);
                   Console ErrorLevel
                     ("Error in /api/generate-readme: " +++ showError tmpdirMissing) ] |}).
Proof.
  apply (mkdtemp_ENOENT_reported_as_clone_failure sampleStringify (Some "key")
           (mkGenAI "key") noTmpdirEnv (bodyWith (JString helloWorldUrl))
           (JString helloWorldUrl) tmpdirMissing); reflexivity.
Defined.

Lemma unreadable_body_is_internal_error_witness :
  exists msg,
    msg <> ""
    /\ POST sampleStringify (Some "key")
         (sampleEnv JNull (Ok tt) (Ok (Some helloResponse)) (Ok tt)) initial
       = (Ok (json (ErrorBody msg) 500),
          {| tempDir := None;
             trace := [ Console ErrorLevel
                          ("Error in /api/generate-readme: "
                           +++ showError cannotDestructure) ] |}).
Proof.
  apply (unreadable_body_is_internal_error sampleStringify (Some "key")
           (mkGenAI "key")
           (sampleEnv JNull (Ok tt) (Ok (Some helloResponse)) (Ok tt))
           cannotDestructure).
  - reflexivity.
  - right. split; reflexivity.
Defined.

Lemma generation_only_after_clone_and_walk_witness :
  exists body url suffix allFiles,
    requestJson helloEnv = Ok body
    /\ destructureRepoUrl body = Ok (JString url)
    /\ hasHttpPrefix (JString url) = true
    /\ mkdtempSuffix helloEnv = Ok suffix
    /\ gitClone helloEnv url (mkdtempPrefix helloEnv +++ suffix) = Ok tt
    /\ listFiles (clonedTree helloEnv) [] [] MAX_FILES_TO_LIST = Ok allFiles
    /\ "gemini-1.5-flash" = "gemini-1.5-flash"
    /\ prompt helloWorldUrl
         (extractedContext
            (extractContext smallRepoFs sampleTempDir smallRepoListing))
       = prompt url
           (extractedContext
              (extractContext (fileSystem helloEnv)
                 (mkdtempPrefix helloEnv +++ suffix) allFiles)).
Proof.
  apply (generation_only_after_clone_and_walk sampleStringify (Some "key")
           helloEnv "gemini-1.5-flash"
           (prompt helloWorldUrl
              (extractedContext
                 (extractContext smallRepoFs sampleTempDir smallRepoListing)))).
  vm_compute. tauto.
Defined.

Lemma generated_text_is_returned_unmodified_witness :
  fst (POST sampleStringify (Some "key") emptyTextEnv initial)
  = Ok (json (ReadmeBody "") 200).
Proof.
  apply (generated_text_is_returned_unmodified sampleStringify (Some "key")
           (mkGenAI "key") emptyTextEnv (bodyWith (JString helloWorldUrl))
           helloWorldUrl "Xy12ab" smallRepoListing (Some emptyTextResponse) "");
    reflexivity.
Defined.

Lemma text_exception_message_is_surfaced_witness :
  fst (POST sampleStringify (Some "key") blockedCandidateEnv initial)
  = Ok (json (ErrorBody
               "[GoogleGenerativeAI Error]: Candidate was blocked due to SAFETY")
             500).
Proof.
  apply (text_exception_message_is_surfaced sampleStringify (Some "key")
           (mkGenAI "key") blockedCandidateEnv (bodyWith (JString helloWorldUrl))
           helloWorldUrl "Xy12ab" smallRepoListing
           (Some {| candidates := Some [ {| finishReason := Some "SAFETY" |} ];
                    promptFeedback := None;
                    text := Some (Throw candidateBlocked) |})
           candidateBlocked
           "[GoogleGenerativeAI Error]: Candidate was blocked due to SAFETY");
    reflexivity.
Defined.

(** ** The page *)

Ltac run_page :=
  unfold Page.after, Page.handleSubmit, Page.tryCatchFinally, Page.submitTry,
    Page.submitCatch, Page.submitFinally, Page.bind, Page.set, Page.effect,
    Page.await, Page.ret, Page.throw;
  cbn [fst snd app negb andb].

Ltac page_cases :=
  repeat match goal with
         | |- context [match ?x with _ => _ end] =>
             lazymatch x with
             | context [match _ with _ => _ end] => fail
             | _ => destruct x eqn:?
             end; cbn [fst snd app negb andb]
         end.

Lemma hasScheme_test url :
  negb (startsWith url "http://") && negb (startsWith url "https://")
  = negb (hasScheme url).
Proof. unfold hasScheme. now rewrite negb_orb. Qed.

(** X16. [handleSubmit] sends a request exactly when the URL in the input
    starts with [http://] or [https://], and then exactly one: a POST to
    [/api/generate-readme] whose body is that URL under [repoUrl].  For any
    other input nothing is sent, whatever the network would answer. *)
Theorem submit_sends_one_request_iff_scheme
    (fetch : JsValue -> Result Page.Response) (s : Page.State) :
  filter isFetch (snd (Page.after (Page.handleSubmit fetch) s))
  = if hasScheme (Page.repoUrl s)
    then [Page.Fetch "/api/generate-readme" "POST" (submitRequest (Page.repoUrl s))]
    else [].
Proof.
  run_page. rewrite hasScheme_test.
  destruct (hasScheme (Page.repoUrl s)); cbn [negb]; [| reflexivity].
  fold (submitRequest (Page.repoUrl s)).
  page_cases; reflexivity.
Qed.

Lemma messageOr_nonempty err fallback :
  fallback <> "" -> Page.messageOr err fallback <> "".
Proof.
  intros Hf. unfold Page.messageOr.
  destruct (message err) as [m |]; [| exact Hf].
  destruct (truthyStr m) eqn:Hm; [now apply truthyStr_nonempty | exact Hf].
Qed.

(** X17. However the request ends, [handleSubmit] leaves the page not
    loading, with the URL untouched and the copy button reset, and in one
    of two states: no error and the README of the response, or an error
    text that is not empty and no README. *)
Theorem submit_ends_with_readme_or_error
    (fetch : JsValue -> Result Page.Response) (s : Page.State) :
  let s' := fst (Page.after (Page.handleSubmit fetch) s) in
  Page.isLoading s' = false
  /\ Page.repoUrl s' = Page.repoUrl s
  /\ Page.copyStatus s' = Page.Idle
  /\ ((Page.error s' = None
       /\ exists response data,
            fetch (submitRequest (Page.repoUrl s)) = Ok response
            /\ Page.jsonBody response = Ok data
            /\ readProperty data "readme" = Ok (JString (Page.generatedReadme s')))
      \/ (exists msg, Page.error s' = Some msg /\ msg <> "")
         /\ Page.generatedReadme s' = "").
Proof.
  run_page. fold (submitRequest (Page.repoUrl s)).
  page_cases;
    (split; [reflexivity | split; [reflexivity | split; [reflexivity |]]]);
    try (right; split; [eexists; split; [reflexivity |] | reflexivity];
         first [ discriminate | apply messageOr_nonempty; discriminate ]).
  all: left; split; [reflexivity |]; eauto.
Qed.

(** The state after a submission that the server answered with a README. *)
Lemma submit_success_state
    (fetch : JsValue -> Result Page.Response) (s : Page.State)
    (response : Page.Response) (data : JsValue) (text : string) :
  hasScheme (Page.repoUrl s) = true ->
  fetch (submitRequest (Page.repoUrl s)) = Ok response ->
  Page.ok response = true ->
  Page.jsonBody response = Ok data ->
  readProperty data "readme" = Ok (JString text) ->
  fst (Page.after (Page.handleSubmit fetch) s)
  = {| Page.repoUrl := Page.repoUrl s;
       Page.generatedReadme := text;
       Page.isLoading := false;
       Page.error := None;
       Page.statusMessage :=
         if Page.truthyError (Page.error s) then ""
         else "README generated successfully!";
       Page.copyStatus := Page.Idle |}.
Proof.
  intros Hscheme Hfetch Hok Hjson Hreadme.
  run_page. rewrite hasScheme_test, Hscheme. cbn [negb].
  fold (submitRequest (Page.repoUrl s)). rewrite Hfetch. cbn [fst snd].
  rewrite Hok. cbn [negb fst snd]. rewrite Hjson, Hreadme. cbn [fst snd].
  destruct (Page.truthyError (Page.error s)); reflexivity.
Qed.

(** X18. A stale [error]: the [finally] block tests the [error] of the
    render in which the form was submitted.  After an attempt that failed,
    a submission that succeeds stores the README and clears the error, but
    wipes the status message as well, so that the line announcing success
    is not shown; it is shown when the earlier render had no error and the
    README is not empty. *)
Theorem success_after_error_hides_banner
    (fetch : JsValue -> Result Page.Response) (s : Page.State)
    (response : Page.Response) (data : JsValue) (text : string) :
  hasScheme (Page.repoUrl s) = true ->
  fetch (submitRequest (Page.repoUrl s)) = Ok response ->
  Page.ok response = true ->
  Page.jsonBody response = Ok data ->
  readProperty data "readme" = Ok (JString text) ->
  let s' := fst (Page.after (Page.handleSubmit fetch) s) in
  Page.generatedReadme s' = text
  /\ Page.error s' = None
  /\ Page.statusMessage s'
     = (if Page.truthyError (Page.error s) then ""
        else "README generated successfully!")
  /\ Page.showsSuccess s'
     = negb (Page.truthyError (Page.error s)) && truthyStr text
  /\ Page.showsOutput s' = truthyStr text.
Proof.
  intros Hscheme Hfetch Hok Hjson Hreadme s'. unfold s'.
  rewrite (submit_success_state fetch s response data text
             Hscheme Hfetch Hok Hjson Hreadme).
  unfold Page.showsSuccess, Page.showsOutput.
  cbn [Page.generatedReadme Page.error Page.statusMessage Page.isLoading
       Page.truthyError negb andb].
  repeat split.
  - destruct (Page.truthyError (Page.error s)); cbn [negb andb];
      destruct (truthyStr text); reflexivity.
  - now rewrite andb_true_r.
Qed.

(** ** The page and the handler together *)

Section EndToEnd.

Context {PromptFeedback : Type}.
Variable JSON_stringify : PromptFeedback -> string.

(** A request that the page sends is never turned down by the test of
    line 63 of the handler: the answer is 200 or 500. *)
Lemma POST_answer_to_page (API_KEY : option string) (env : Env PromptFeedback)
    (url : string) :
  hasScheme url = true ->
  exists r,
    fst (POST JSON_stringify API_KEY (withRequest env (submitRequest url)) initial)
    = Ok r
    /\ pipelineAnswer r.
Proof.
  intros Hscheme.
  set (env' := withRequest env (submitRequest url)).
  destruct (genAI API_KEY) as [ai |] eqn:Hai.
  2:{ unfold POST. rewrite Hai. eexists. split; [reflexivity |].
      right. eexists. split; [| reflexivity]. discriminate. }
  rewrite (POST_result JSON_stringify API_KEY ai env' initial Hai).
  rewrite tryBlock_run.
  assert (Hbody : requestJson env' = Ok (submitRequest url)) by reflexivity.
  assert (Hv : destructureRepoUrl (submitRequest url) = Ok (JString url))
    by reflexivity.
  rewrite Hbody, Hv, invalidRepoUrl_prefix.
  change (hasHttpPrefix (JString url)) with (hasScheme url).
  rewrite Hscheme. cbn [negb]. cbv zeta.
  destruct (mkdtempSuffix env') as [suffix | e].
  - match goal with
    | |- context [cloneExtractGenerate JSON_stringify env' ?u ?d ?st0] =>
        pose proof (answers_cloneExtractGenerate JSON_stringify env' u d st0) as Hans;
        destruct (cloneExtractGenerate JSON_stringify env' u d st0)
          as [[r | e] st1]
    end.
    + exists r. split; [reflexivity |]. now apply Hans.
    + destruct (catchBlock_answer e st1) as (m & Hne & Hm).
      eexists. split; [exact Hm |]. right. now exists m.
  - match goal with
    | |- context [catchBlock e ?st1] =>
        destruct (catchBlock_answer e st1) as (m & Hne & Hm)
    end.
    eexists. split; [exact Hm |]. right. now exists m.
Qed.

(** X19. The page and the handler fit together.  A request that the page
    sends is never answered with the 400 rejection, since both test the
    same two prefixes.  When the handler answers 200, the page ends with
    the README text of that answer and no error; when it answers 500, the
    page ends with the error text of that answer and no README.  In both
    cases the page is no longer loading. *)
Theorem page_shows_what_the_handler_answers (API_KEY : option string)
    (env : Env PromptFeedback) (s : Page.State) :
  hasScheme (Page.repoUrl s) = true ->
  let s' :=
    fst (Page.after (Page.handleSubmit (served JSON_stringify API_KEY env)) s) in
  exists r,
    fst (POST JSON_stringify API_KEY
           (withRequest env (submitRequest (Page.repoUrl s))) initial) = Ok r
    /\ status r <> 400
    /\ match body r with
       | ReadmeBody readme =>
           Page.generatedReadme s' = readme /\ Page.error s' = None
       | ErrorBody msg =>
           Page.error s' = Some msg /\ Page.generatedReadme s' = ""
       end
    /\ Page.isLoading s' = false.
Proof.
  intros Hscheme.
  destruct (POST_answer_to_page API_KEY env (Page.repoUrl s) Hscheme)
    as (r & Hr & Hshape).
  exists r. split; [exact Hr |].
  assert (Hserved : served JSON_stringify API_KEY env (submitRequest (Page.repoUrl s))
                    = Ok (onTheWire r)) by (unfold served; now rewrite Hr).
  run_page. rewrite hasScheme_test, Hscheme. cbn [negb].
  fold (submitRequest (Page.repoUrl s)). rewrite Hserved. cbn [fst snd].
  destruct Hshape as [[readme ->] | (msg & Hmsg & ->)].
  - cbn. destruct (Page.truthyError (Page.error s)); cbn;
      repeat split; discriminate.
  - assert (Ht : truthyStr msg = true) by (destruct msg; [contradiction | reflexivity]).
    cbn. unfold Page.orElse. cbn [truthy jsToString]. rewrite Ht.
    cbn. unfold Page.messageOr, newError. cbn [message]. rewrite Ht.
    destruct (Page.truthyError (Page.error s)); cbn;
      repeat split; discriminate.
Qed.

End EndToEnd.

(** X20. What goes to the clipboard is the README of the response,
    unchanged: after a submission that succeeded with the text [text], a
    click on the copy button of the next render writes exactly [text], and
    the button shows [Copied] when the write succeeded and [Failed] when it
    threw. *)
Theorem copy_writes_the_generated_readme
    (fetch : JsValue -> Result Page.Response) (s : Page.State)
    (response : Page.Response) (data : JsValue) (text : string)
    (writeText : string -> Result unit) :
  hasScheme (Page.repoUrl s) = true ->
  fetch (submitRequest (Page.repoUrl s)) = Ok response ->
  Page.ok response = true ->
  Page.jsonBody response = Ok data ->
  readProperty data "readme" = Ok (JString text) ->
  let s' := fst (Page.after (Page.handleSubmit fetch) s) in
  Page.after (Page.handleCopyReadme (Some writeText)) s'
  = (Page.setCopyStatus
       (match writeText text with Ok _ => Page.Copied | Throw _ => Page.Failed end)
       s',
     Page.WriteText text
     :: match writeText text with
        | Ok _ => [Page.ResetCopyStatusAfter 2000]
        | Throw err =>
            [ Page.ConsoleError ("Failed to copy README to clipboard: "
                                 +++ showError err);
              Page.ResetCopyStatusAfter 3000 ]
        end).
Proof.
  intros Hscheme Hfetch Hok Hjson Hreadme s'.
  assert (Htext : Page.generatedReadme s' = text)
    by (unfold s';
        now rewrite (submit_success_state fetch s response data text
                       Hscheme Hfetch Hok Hjson Hreadme)).
  unfold Page.after, Page.handleCopyReadme, Page.bind, Page.effect, Page.set.
  cbn [fst snd app]. rewrite Htext.
  destruct (writeText text); reflexivity.
Qed.

(** ** The page on concrete answers *)

Lemma success_after_error_hides_banner_witness :
  let s' := fst (Page.after (Page.handleSubmit (fun _ => Ok helloAnswer))
                   afterFailure) in
  Page.generatedReadme s' = "# Hello"
  /\ Page.error s' = None
  /\ Page.statusMessage s'
     = (if Page.truthyError (Page.error afterFailure) then ""
        else "README generated successfully!")
  /\ Page.showsSuccess s'
     = negb (Page.truthyError (Page.error afterFailure)) && truthyStr "# Hello"
  /\ Page.showsOutput s' = truthyStr "# Hello".
Proof.
  apply (success_after_error_hides_banner (fun _ => Ok helloAnswer) afterFailure
           helloAnswer (JObject [("readme", JString "# Hello")]) "# Hello");
    reflexivity.
Defined.

Example banner_hidden_after_failure :
  Page.showsSuccess
    (fst (Page.after (Page.handleSubmit (fun _ => Ok helloAnswer)) afterFailure))
  = false
  /\ Page.showsSuccess
       (fst (Page.after (Page.handleSubmit (fun _ => Ok helloAnswer))
               (Page.setError None afterFailure)))
     = true.
Proof. split; vm_compute; reflexivity. Qed.

Lemma page_shows_what_the_handler_answers_witness :
  let s' :=
    fst (Page.after
           (Page.handleSubmit (served sampleStringify (Some "key") cloneFailsEnv))
           afterFailure) in
  exists r,
    fst (POST sampleStringify (Some "key")
           (withRequest cloneFailsEnv (submitRequest (Page.repoUrl afterFailure)))
           initial) = Ok r
    /\ status r <> 400
    /\ match body r with
       | ReadmeBody readme =>
           Page.generatedReadme s' = readme /\ Page.error s' = None
       | ErrorBody msg =>
           Page.error s' = Some msg /\ Page.generatedReadme s' = ""
       end
    /\ Page.isLoading s' = false.
Proof.
  apply (page_shows_what_the_handler_answers sampleStringify (Some "key")
           cloneFailsEnv afterFailure).
  reflexivity.
Defined.

Example page_shows_clone_failure :
  Page.error
    (fst (Page.after
            (Page.handleSubmit (served sampleStringify (Some "key") cloneFailsEnv))
            afterFailure))
  = Some "fatal: repository 'https://example.com/not-a-repo/' not found".
Proof. vm_compute. reflexivity. Qed.

Example page_shows_generated_readme :
  Page.generatedReadme
    (fst (Page.after
            (Page.handleSubmit (served sampleStringify (Some "key") helloEnv))
            afterFailure))
  = "# Hello" +++ nl.
Proof. vm_compute. reflexivity. Qed.

Lemma copy_writes_the_generated_readme_witness :
  let s' := fst (Page.after (Page.handleSubmit (fun _ => Ok helloAnswer))
                   afterFailure) in
  Page.after (Page.handleCopyReadme (Some (fun _ => Ok tt))) s'
  = (Page.setCopyStatus Page.Copied s',
     [Page.WriteText "# Hello"; Page.ResetCopyStatusAfter 2000]).
Proof.
  apply (copy_writes_the_generated_readme (fun _ => Ok helloAnswer) afterFailure
           helloAnswer (JObject [("readme", JString "# Hello")]) "# Hello"
           (fun _ => Ok tt)); reflexivity.
Defined.
